(** * Home Repair Contractor Matcher: the scoring pipeline of [backend/main.py]

    A shallow embedding of the deterministic part of the [/score] endpoint:
    the five normalizers, [calculate_base_score], the locale filter with the
    stable three-key sort and the top-5 cut, and the validation of the GPT
    reply (clamp to base score +-5, lookup by identifier, top-3 cut) with
    its JSON fallback.

    Numbers.  Python [int]s are [Z].  Python [float]s are modelled as real
    numbers [R]: [+], [*], [/], [min], [max], [math.log] and the comparisons
    are the exact real operations, and [round(x, 1)] is rounding to the
    nearest tenth, ties to the even tenth.  NaN, the infinities and the
    rounding error of binary64 are outside this model.

    Strings are [string]; Python dicts with string keys are [gmap string _];
    the contractor dicts and the pydantic models are records. *)

From Stdlib Require Import Reals Lra Lia ZArith Ascii String.
From stdpp Require Import gmap strings list fin_maps sorting.

#[local] Open Scope R_scope.

(* ===================================================================== *)
(** * Part I.  The model                                                  *)
(* ===================================================================== *)

(** ** Python built-ins used by the source *)

(** [str.lower()] on ASCII text: [A]..[Z] go to [a]..[z], every other
    character is kept. *)
Definition lower_ascii (c : ascii) : ascii :=
  let n := nat_of_ascii c in
  if (Nat.leb 65 n && Nat.leb n 90)%bool then ascii_of_nat (n + 32) else c.

Fixpoint lower (s : string) : string :=
  match s with
  | EmptyString => EmptyString
  | String c s' => String (lower_ascii c) (lower s')
  end.

(** Rounding a real to the nearest integer, ties to even. *)
Definition round_half_even (x : R) : Z :=
  let f := Zfloor x in
  let d := x - IZR f in
  if Rlt_dec d (1 / 2) then f
  else if Rlt_dec (1 / 2) d then (f + 1)%Z
  else if Z.even f then f else (f + 1)%Z.

(** [round(x, 1)]. *)
Definition round1 (x : R) : R := IZR (round_half_even (x * 10)) / 10.

(** ** Data *)

(** An entry of [CONTRACTORS].  The three keys the source reads with
    [.get(key, default)] are optional. *)
Module Contractor.
Record t := mk {
    id : string;
    name : string;
    vertical : string;
    years_in_business : Z;
    rating : R;
    review_count : Z;
    service_area : string;
    pricing_band : string;
    speed_weeks : option Z;
    licenses : option (list string);
    flags : option (list string)
  }.
End Contractor.

(** [class ScoreRequest]. *)
Module ScoreRequest.
Record t := mk {
    city : string;
    project_type : string;
    notes : string;
    weights : gmap string R
  }.
End ScoreRequest.

Definition c1 : Contractor.t :=
  Contractor.mk "c1" "NorthPeak Roofing" "roofing" 18 4.7 312
    "Salt Lake City" "$$$" (Some 2%Z) (Some ["UT-ROOF-44121"]) (Some []).

Definition c2 : Contractor.t :=
  Contractor.mk "c2" "Beehive Home Repair" "handyman" 6 4.4 128
    "Salt Lake City" "$$" (Some 3%Z) (Some ["UT-GEN-99812"])
    (Some ["limited_roofing_experience"]).

Definition c3 : Contractor.t :=
  Contractor.mk "c3" "Wasatch Elite Exteriors" "siding" 12 4.8 205
    "Salt Lake City" "$$$" (Some 4%Z) (Some ["UT-EXT-77421"])
    (Some ["premium_pricing"]).

Definition c4 : Contractor.t :=
  Contractor.mk "c4" "Granite Peak Roofing Co." "roofing" 9 4.5 164
    "Salt Lake City" "$$" (Some 3%Z) (Some ["UT-ROOF-55210"]) (Some []).

Definition c5 : Contractor.t :=
  Contractor.mk "c5" "QuickFix Pros" "roofing" 3 4.2 59
    "Salt Lake City" "$" (Some 2%Z) (Some ["UT-ROOF-12003"])
    (Some ["newer_company"]).

Definition CONTRACTORS : list Contractor.t := [c1; c2; c3; c4; c5].

(** The request of the spec's end-to-end example (its notes are empty). *)
Definition example_weights : gmap string R :=
  {[ "experience" := 0.2; "reviews" := 0.2; "rating" := 0.3;
     "price" := 0.1; "speed" := 0.2 ]}.

Definition example_request : ScoreRequest.t :=
  ScoreRequest.mk "Salt Lake City" "roofing" "" example_weights.

(** ** Normalizers *)

Definition normalize_experience (years : Z) : R :=
  Rmin (IZR years / 20) 1 * 100.

Definition normalize_reviews (review_count : Z) : R :=
  if (review_count <=? 1)%Z then 0
  else
    let max_reviews := 500%Z in
    Rmin (ln (IZR review_count) / ln (IZR max_reviews)) 1 * 100.

Definition normalize_rating (rating : R) : R :=
  ((rating - 1) / 4) * 100.

Definition price_mapping : gmap string R :=
  {[ "$" := 100; "$$" := 70; "$$$" := 40; "" := 50 ]}.

Definition inverted_mapping : gmap string R :=
  {[ "$" := 60; "$$" := 80; "$$$" := 100; "" := 50 ]}.

Definition normalize_price (pricing_band : string) (price_weight : R) : R :=
  let base_score := default 50 (price_mapping !! pricing_band) in
  if Rlt_dec price_weight 0.2
  then default 50 (inverted_mapping !! pricing_band)
  else base_score.

Definition normalize_speed (speed_weeks : Z) : R :=
  let max_weeks := 6%Z in
  Rmax 0 (IZR (max_weeks - speed_weeks) / IZR (max_weeks - 1)) * 100.

(** The two tables of the price normalizer, as the spec lists them. *)
Definition standard_table (band : string) : R :=
  if decide (band = "$") then 100
  else if decide (band = "$$") then 70
  else if decide (band = "$$$") then 40
  else 50.

Definition inverted_table (band : string) : R :=
  if decide (band = "$") then 60
  else if decide (band = "$$") then 80
  else if decide (band = "$$$") then 100
  else 50.

(** ** Score aggregator: [calculate_base_score] *)

Definition weight (request : ScoreRequest.t) (key : string) (dflt : R) : R :=
  default dflt (ScoreRequest.weights request !! key).

Definition exp_score (contractor : Contractor.t) : R :=
  normalize_experience (Contractor.years_in_business contractor).

Definition review_score (contractor : Contractor.t) : R :=
  normalize_reviews (Contractor.review_count contractor).

Definition rating_score (contractor : Contractor.t) : R :=
  normalize_rating (Contractor.rating contractor).

Definition price_score (contractor : Contractor.t) (request : ScoreRequest.t) : R :=
  normalize_price (Contractor.pricing_band contractor) (weight request "price" 0.1).

Definition speed_score (contractor : Contractor.t) : R :=
  normalize_speed (default 4%Z (Contractor.speed_weeks contractor)).

Definition weighted_score (contractor : Contractor.t) (request : ScoreRequest.t) : R :=
  exp_score contractor * weight request "experience" 0
  + review_score contractor * weight request "reviews" 0
  + rating_score contractor * weight request "rating" 0
  + price_score contractor request * weight request "price" 0
  + speed_score contractor * weight request "speed" 0.

(** The [if]/[elif] on the vertical: the first test lowers both sides, the
    second compares the vertical as it is. *)
Definition apply_project_type (contractor : Contractor.t) (request : ScoreRequest.t)
    (score : R) : R :=
  if decide (lower (Contractor.vertical contractor)
             = lower (ScoreRequest.project_type request))
  then score * 1.2
  else if decide (Contractor.vertical contractor = "handyman"
                  ∧ lower (ScoreRequest.project_type request) ∈ ["roofing"; "siding"])
  then score * 0.8
  else score.

Definition negative_flags : list string :=
  ["limited_roofing_experience"; "newer_company"; "premium_pricing"].

(** The loop over the contractor's flags, in order. *)
Definition apply_flag_penalties (flags : list string) (score : R) : R :=
  foldl (fun acc flag => if decide (flag ∈ negative_flags) then acc * 0.9 else acc)
        score flags.

Definition calculate_base_score (contractor : Contractor.t) (request : ScoreRequest.t) : R :=
  let s := weighted_score contractor request in
  let s := apply_project_type contractor request s in
  let s := apply_flag_penalties (default [] (Contractor.flags contractor)) s in
  Rmin s 100.

(** The aggregator's multipliers in closed form, as the spec words them:
    the category multiplier, and the number of penalised flags. *)
Definition category_multiplier (contractor : Contractor.t) (request : ScoreRequest.t) : R :=
  if decide (lower (Contractor.vertical contractor)
             = lower (ScoreRequest.project_type request))
  then 1.2
  else if decide (Contractor.vertical contractor = "handyman"
                  ∧ lower (ScoreRequest.project_type request) ∈ ["roofing"; "siding"])
  then 0.8
  else 1.

Definition negative_flag_count (flags : list string) : nat :=
  length (filter (fun flag => flag ∈ negative_flags) flags).

(** ** Candidate ranker *)

(** An entry of [base_scores]: the contractor's attributes with the [.get]
    defaults resolved, and the base score rounded to one decimal. *)
Module Candidate.
Record t := mk {
    id : string;
    name : string;
    base_score : R;
    vertical : string;
    years_in_business : Z;
    rating : R;
    review_count : Z;
    service_area : string;
    pricing_band : string;
    speed_weeks : Z;
    licenses : list string;
    flags : list string
  }.
End Candidate.

#[global] Instance Req_decision : EqDecision R := Req_dec_T.
#[global] Instance Rlt_decision : RelDecision Rlt := Rlt_dec.

(** The source filters the module-level list [CONTRACTORS]; here the pool
    is an argument, and the endpoint below passes [CONTRACTORS]. *)
Definition available_contractors (pool : list Contractor.t) (request : ScoreRequest.t)
    : list Contractor.t :=
  filter (fun c => lower (Contractor.service_area c) = lower (ScoreRequest.city request))
         pool.

Definition base_score_entry (request : ScoreRequest.t) (contractor : Contractor.t)
    : Candidate.t :=
  let base_score := calculate_base_score contractor request in
  {| Candidate.id := Contractor.id contractor;
     Candidate.name := Contractor.name contractor;
     Candidate.base_score := round1 base_score;
     Candidate.vertical := Contractor.vertical contractor;
     Candidate.years_in_business := Contractor.years_in_business contractor;
     Candidate.rating := Contractor.rating contractor;
     Candidate.review_count := Contractor.review_count contractor;
     Candidate.service_area := Contractor.service_area contractor;
     Candidate.pricing_band := Contractor.pricing_band contractor;
     Candidate.speed_weeks := default 4%Z (Contractor.speed_weeks contractor);
     Candidate.licenses := default [] (Contractor.licenses contractor);
     Candidate.flags := default [] (Contractor.flags contractor) |}.

(** The sort key [(x["base_score"], x["rating"], x["review_count"])] and
    Python's [<] on such tuples: the first component that differs decides. *)
Definition sort_key (x : Candidate.t) : R * R * Z :=
  (Candidate.base_score x, Candidate.rating x, Candidate.review_count x).

Definition key_lt (a b : R * R * Z) : Prop :=
  let '(a1, a2, a3) := a in
  let '(b1, b2, b3) := b in
  a1 < b1 ∨ (a1 = b1 ∧ (a2 < b2 ∨ (a2 = b2 ∧ (a3 < b3)%Z))).

#[global] Instance key_lt_decision : RelDecision key_lt.
Proof. intros [[a1 a2] a3] [[b1 b2] b3]. unfold key_lt. apply _. Defined.

(** [list.sort(key=..., reverse=True)]: a stable sort into descending key
    order, elements with equal keys keeping their original order.  The
    result of a stable sort does not depend on the algorithm; it is written
    here as an insertion sort. *)
Section StableSort.
Context {A K : Type} (key : A → K) (lt : K → K → Prop) `{!RelDecision lt}.

Fixpoint insert_reverse (x : A) (l : list A) : list A :=
    match l with
    | [] => [x]
    | y :: l' =>
        if decide (lt (key x) (key y)) then y :: insert_reverse x l'
        else x :: y :: l'
    end.

Definition sort_reverse (l : list A) : list A := foldr insert_reverse [] l.

(** [x] may stand before [y] in a descending list: its key is not below
    the key of [y]. *)
Definition not_below (x y : A) : Prop := ¬ lt (key x) (key y).
End StableSort.

Definition sorted_base_scores (pool : list Contractor.t) (request : ScoreRequest.t)
    : list Candidate.t :=
  sort_reverse sort_key key_lt
    (base_score_entry request <$> available_contractors pool request).

(** [base_scores[:5]]. *)
Definition top_candidates (pool : list Contractor.t) (request : ScoreRequest.t)
    : list Candidate.t :=
  take 5 (sorted_base_scores pool request).

(** The spec's tie-break hierarchy between a record [x] and a record [y]
    placed after it: a higher base score, or the same base score and a
    higher rating, or the same of both and a review count at least as high. *)
Definition ranks_before (x y : Candidate.t) : Prop :=
  Candidate.base_score y < Candidate.base_score x
  ∨ (Candidate.base_score y = Candidate.base_score x
     ∧ (Candidate.rating y < Candidate.rating x
        ∨ (Candidate.rating y = Candidate.rating x
           ∧ (Candidate.review_count y ≤ Candidate.review_count x)%Z))).

(** ** Refinement gate *)

(** [class ScoredContractor]. *)
Module ScoredContractor.
Record t := mk {
    id : string;
    name : string;
    vertical : string;
    years_in_business : Z;
    rating : R;
    review_count : Z;
    service_area : string;
    pricing_band : string;
    speed_weeks : Z;
    licenses : list string;
    flags : list string;
    score : R;
    reasoning : option string
  }.
End ScoredContractor.

(** The value [json.loads] returns. *)
#[warnings="-register-all"]
Inductive json :=
| JNull
| JBool (b : bool)
| JNum (r : R)
| JStr (s : string)
| JArr (l : list json)
| JObj (m : gmap string json).

(** What the call to the model gives the endpoint. *)
Inductive refiner_outcome :=
| CallRaised              (* [responses.create] raises: unreachable, timeout, API error *)
| NotJson                 (* [json.loads(output_text)] raises [JSONDecodeError] *)
| Parsed (v : json).      (* [json.loads(output_text)] returns [v] *)

(** What the endpoint gives its caller: a [ScoreResponse], or the
    [HTTPException(status_code=500)] of the outer handler. *)
Inductive result :=
| Ok (top_contractors : list ScoredContractor.t)
| HTTP500.

(** [float(s)] for a string [s], [None] when it raises [ValueError]. *)
Class FloatOfStr := float_of_str : string → option R.

(** An instance for the worked examples, none of which has a string for a
    score: every string is refused. *)
Definition no_string_scores : FloatOfStr := fun _ => None.

(** In the functions below [None] is an exception that reaches the outer
    [except Exception]. *)

(** [v.get(key, dflt)]: only a dict has [.get]. *)
Definition py_get (v : json) (key : string) (dflt : json) : option json :=
  match v with
  | JObj m => Some (default dflt (m !! key))
  | _ => None
  end.

(** [float(v)]. *)
Definition py_float `{FloatOfStr} (v : json) : option R :=
  match v with
  | JNum r => Some r
  | JBool b => Some (if b then 1 else 0)
  | JStr s => float_of_str s
  | JNull | JArr _ | JObj _ => None
  end.

(** The elements a [for] loop over [v] visits.  A dict yields its keys and
    a string its characters, all of them strings (the order of the keys is
    the map's, not the insertion order). *)
Fixpoint characters (s : string) : list string :=
  match s with
  | EmptyString => []
  | String c s' => String c EmptyString :: characters s'
  end.

Definition py_iter (v : json) : option (list json) :=
  match v with
  | JArr l => Some l
  | JObj m => Some (JStr <$> (map_to_list m).*1)
  | JStr s => Some (JStr <$> characters s)
  | JNull | JBool _ | JNum _ => None
  end.

(** [d.get(k)] on a dict [d] whose keys are all strings, for a key [k] that
    came out of JSON: a list or a dict is unhashable, a string is looked
    up, and anything else is hashable and not a key of [d]. *)
Definition lookup_key {V : Type} (d : gmap string V) (k : json) : option (option V) :=
  match k with
  | JStr s => Some (d !! s)
  | JArr _ | JObj _ => None
  | JNull | JBool _ | JNum _ => Some None
  end.

(** [{c["id"]: f(c) for c in top_candidates}]: a later entry overwrites an
    earlier one with the same id. *)
Definition dict_by_id {V : Type} (f : Candidate.t → V) (l : list Candidate.t)
    : gmap string V :=
  foldl (fun d c => <[Candidate.id c := f c]> d) ∅ l.

(** The fields [id: str] and [reasoning: Optional[str]] of the pydantic
    model (pydantic 2: a string, or [None] where optional; nothing is
    coerced). *)
Definition validate_id (v : json) : option string :=
  match v with
  | JStr s => Some s
  | _ => None
  end.

Definition validate_reasoning (v : json) : option (option string) :=
  match v with
  | JStr s => Some (Some s)
  | JNull => Some None
  | _ => None
  end.

(** The [±5] clamp. *)
Definition clamp_score (base_score suggested_score : R) : R :=
  let min_allowed := base_score - 5 in
  let max_allowed := base_score + 5 in
  Rmax min_allowed (Rmin suggested_score max_allowed).

(** The constructor call [ScoredContractor(id=..., name=c["name"], ...,
    flags=c["flags"], score=..., reasoning=...)] for a shortlist entry [c]:
    the ten attributes after [id] are read from [c]. *)
Definition scored_contractor (id : string) (c : Candidate.t) (score : R)
    (reasoning : option string) : ScoredContractor.t :=
  {| ScoredContractor.id := id;
     ScoredContractor.name := Candidate.name c;
     ScoredContractor.vertical := Candidate.vertical c;
     ScoredContractor.years_in_business := Candidate.years_in_business c;
     ScoredContractor.rating := Candidate.rating c;
     ScoredContractor.review_count := Candidate.review_count c;
     ScoredContractor.service_area := Candidate.service_area c;
     ScoredContractor.pricing_band := Candidate.pricing_band c;
     ScoredContractor.speed_weeks := Candidate.speed_weeks c;
     ScoredContractor.licenses := Candidate.licenses c;
     ScoredContractor.flags := Candidate.flags c;
     ScoredContractor.score := score;
     ScoredContractor.reasoning := reasoning |}.

(** One pass of the loop over the reply's entries: [Some None] is the
    [continue], [Some (Some r)] the appended record. *)
Definition process_entry `{FloatOfStr} (top_candidates : list Candidate.t)
    (contractor_data : json) : option (option ScoredContractor.t) :=
  let base_score_lookup := dict_by_id Candidate.base_score top_candidates in
  let contractor_details_lookup := dict_by_id (fun c => c) top_candidates in
  contractor_id ← py_get contractor_data "id" (JStr "");
  score ← py_get contractor_data "score" (JNum 0);
  suggested_score ← py_float score;
  found_score ← lookup_key base_score_lookup contractor_id;
  let base_score := default 0 found_score in
  found ← lookup_key contractor_details_lookup contractor_id;
  match found with
  | None => Some None
  | Some full_contractor =>
      let final_score := clamp_score base_score suggested_score in
      id ← validate_id contractor_id;
      reasoning ← py_get contractor_data "reasoning" (JStr "")
                  ≫= validate_reasoning;
      Some (Some (scored_contractor id full_contractor
                    (round1 final_score) reasoning))
  end.

(** The loop: the records of the entries that are kept, in the order of the
    reply; an exception in any pass ends the loop. *)
Fixpoint process_entries `{FloatOfStr} (top_candidates : list Candidate.t)
    (entries : list json) : option (list ScoredContractor.t) :=
  match entries with
  | [] => Some []
  | contractor_data :: rest =>
      r ← process_entry top_candidates contractor_data;
      top_contractors ← process_entries top_candidates rest;
      Some (match r with
            | Some scored => scored :: top_contractors
            | None => top_contractors
            end)
  end.

(** The body of the inner [try], after [json.loads] has returned. *)
Definition validate_response `{FloatOfStr} (top_candidates : list Candidate.t)
    (parsed_response : json) : option (list ScoredContractor.t) :=
  entries ← py_get parsed_response "top_contractors" (JArr []) ≫= py_iter;
  top_contractors ← process_entries top_candidates entries;
  Some (take 3 top_contractors).

(** The [except json.JSONDecodeError] branch. *)
Definition fallback_contractor (contractor : Candidate.t) : ScoredContractor.t :=
  scored_contractor (Candidate.id contractor) contractor
    (Candidate.base_score contractor)
    (Some "Base score (GPT adjustment failed)").

Definition fallback_contractors (top_candidates : list Candidate.t)
    : list ScoredContractor.t :=
  fallback_contractor <$> take 3 top_candidates.

(** The endpoint, over an arbitrary pool. *)
Definition score_pool `{FloatOfStr} (pool : list Contractor.t)
    (request : ScoreRequest.t) (gpt : refiner_outcome) : result :=
  let top_candidates := top_candidates pool request in
  match gpt with
  | CallRaised => HTTP500
  | NotJson => Ok (fallback_contractors top_candidates)
  | Parsed parsed_response =>
      match validate_response top_candidates parsed_response with
      | Some top_contractors => Ok top_contractors
      | None => HTTP500
      end
  end.

(** [POST /score]. *)
Definition score_contractors_with_openai `{FloatOfStr}
    (request : ScoreRequest.t) (gpt : refiner_outcome) : result :=
  score_pool CONTRACTORS request gpt.

(** The identifier and the ten attributes a final record takes from a
    shortlist entry. *)
Definition same_attributes (r : ScoredContractor.t) (c : Candidate.t) : Prop :=
  ScoredContractor.id r = Candidate.id c
  ∧ ScoredContractor.name r = Candidate.name c
  ∧ ScoredContractor.vertical r = Candidate.vertical c
  ∧ ScoredContractor.years_in_business r = Candidate.years_in_business c
  ∧ ScoredContractor.rating r = Candidate.rating c
  ∧ ScoredContractor.review_count r = Candidate.review_count c
  ∧ ScoredContractor.service_area r = Candidate.service_area c
  ∧ ScoredContractor.pricing_band r = Candidate.pricing_band c
  ∧ ScoredContractor.speed_weeks r = Candidate.speed_weeks c
  ∧ ScoredContractor.licenses r = Candidate.licenses c
  ∧ ScoredContractor.flags r = Candidate.flags c.

(** Two replies for the example request: one that suggests 97.25 for c1
    and names an unknown contractor, and one whose entry has no score. *)
Definition example_entry_c1 : gmap string json :=
  {[ "id" := JStr "c1"; "score" := JNum 97.25;
     "reasoning" := JStr "Strong warranty record" ]}.

Definition example_entry_c9 : gmap string json :=
  {[ "id" := JStr "c9"; "score" := JNum 80 ]}.

Definition example_reply : json :=
  JObj {[ "top_contractors" :=
            JArr [ JObj example_entry_c1; JObj example_entry_c9 ] ]}.

Definition example_entry_no_score : gmap string json :=
  {[ "id" := JStr "c1" ]}.

Definition example_reply_no_score : json :=
  JObj {[ "top_contractors" := JArr [ JObj example_entry_no_score ] ]}.

(** ** Further definitions used to state properties *)

(** A value of "top_contractors" over which the loop cannot run to its
    end: a value that is not iterable, or an iterable whose elements are
    strings (a non-empty string, a non-empty dict). *)
Definition not_entries (v : json) : Prop :=
  match v with
  | JNull | JBool _ | JNum _ => True
  | JStr s => s ≠ ""
  | JObj m => m ≠ ∅
  | JArr _ => False
  end.

(** The example request with a city no contractor serves. *)
Definition provo_request : ScoreRequest.t :=
  ScoreRequest.mk "Provo" "roofing" "" example_weights.

(** A reply whose second entry names an unknown contractor and has a null
    score. *)
Definition example_reply_null_score : json :=
  JObj {[ "top_contractors" :=
            JArr [ JObj example_entry_c1;
                   JObj {[ "id" := JStr "c9"; "score" := JNull ]} ] ]}.


(** An entry that suggests 200 for c1. *)
Definition example_entry_high : gmap string json :=
  {[ "id" := JStr "c1"; "score" := JNum 200 ]}.

(** The attributes of a final record are those of a contractor of the
    pool, with the defaults of the three optional keys. *)
Definition carries_contractor (r : ScoredContractor.t) (contractor : Contractor.t) : Prop :=
  ScoredContractor.id r = Contractor.id contractor
  ∧ ScoredContractor.name r = Contractor.name contractor
  ∧ ScoredContractor.vertical r = Contractor.vertical contractor
  ∧ ScoredContractor.years_in_business r = Contractor.years_in_business contractor
  ∧ ScoredContractor.rating r = Contractor.rating contractor
  ∧ ScoredContractor.review_count r = Contractor.review_count contractor
  ∧ ScoredContractor.service_area r = Contractor.service_area contractor
  ∧ ScoredContractor.pricing_band r = Contractor.pricing_band contractor
  ∧ ScoredContractor.speed_weeks r = default 4%Z (Contractor.speed_weeks contractor)
  ∧ ScoredContractor.licenses r = default [] (Contractor.licenses contractor)
  ∧ ScoredContractor.flags r = default [] (Contractor.flags contractor).


(** The example request as another client might send it: other letter
    case, other notes. *)
Definition example_request_upper : ScoreRequest.t :=
  ScoreRequest.mk "SALT LAKE CITY" "Roofing" "urgent, leaking" example_weights.

(** The order the shortlist falls back to when all base scores are equal:
    higher rating first, then a review count at least as high. *)
Definition ranks_before_by_rating (x y : Candidate.t) : Prop :=
  Candidate.rating y < Candidate.rating x
  ∨ (Candidate.rating y = Candidate.rating x
     ∧ (Candidate.review_count y ≤ Candidate.review_count x)%Z).

(** A request without weights. *)
Definition no_weights_request : ScoreRequest.t :=
  ScoreRequest.mk "Salt Lake City" "roofing" "" ∅.


(** A request with one weight replaced. *)
Definition with_weight (request : ScoreRequest.t) (key : string) (w : R)
    : ScoreRequest.t :=
  ScoreRequest.mk (ScoreRequest.city request) (ScoreRequest.project_type request)
    (ScoreRequest.notes request) (<[key := w]> (ScoreRequest.weights request)).

(** An entry of the reply that the loop can process: an object whose "id"
    is a string (or missing), whose score [float] accepts and whose
    reasoning the model accepts. *)
Definition well_formed_entry `{FloatOfStr} (e : json) : Prop :=
  ∃ (m : gmap string json) (i : string) (suggested : R)
    (reasoning : option string),
    e = JObj m
    ∧ default (JStr "") (m !! "id") = JStr i
    ∧ py_float (default (JNum 0) (m !! "score")) = Some suggested
    ∧ validate_reasoning (default (JStr "") (m !! "reasoning")) = Some reasoning.

(** The entry's identifier is that of a shortlist entry. *)
Definition names_shortlisted (top : list Candidate.t) (e : json) : Prop :=
  match e with
  | JObj m =>
      match default (JStr "") (m !! "id") with
      | JStr i => i ∈ Candidate.id <$> top
      | _ => False
      end
  | _ => False
  end.

#[global] Instance names_shortlisted_dec (top : list Candidate.t) (e : json) :
  Decision (names_shortlisted top e).
Proof.
  unfold names_shortlisted. destruct e; try apply _.
  destruct (default (JStr "") (m !! "id")); apply _.
Defined.

(** A reply that names c1 twice. *)
Definition example_reply_twice : gmap string json :=
  {[ "top_contractors" := JArr [ JObj example_entry_c1; JObj example_entry_c1 ] ]}.

(* ===================================================================== *)
(** * Part II.  Properties                                                *)
(* ===================================================================== *)

(** ** Rounding to one decimal *)

Lemma round_half_even_cases (x : R) :
  round_half_even x = Zfloor x ∨ round_half_even x = (Zfloor x + 1)%Z.
Proof.
  unfold round_half_even.
  destruct (Rlt_dec _ _); [by left|].
  destruct (Rlt_dec _ _); [by right|].
  destruct (Z.even _); [by left | by right].
Qed.

Lemma round_half_even_IZR (k : Z) : round_half_even (IZR k) = k.
Proof.
  unfold round_half_even. rewrite ZfloorZ.
  destruct (Rlt_dec _ _) as [|Hn]; [done|]. exfalso. apply Hn. lra.
Qed.

Lemma round_half_even_lower (a : Z) (x : R) :
  IZR a <= x → (a ≤ round_half_even x)%Z.
Proof.
  intros Hax. apply Zfloor_lub in Hax.
  destruct (round_half_even_cases x) as [-> | ->]; lia.
Qed.

Lemma round_half_even_upper (b : Z) (x : R) :
  x <= IZR b → (round_half_even x ≤ b)%Z.
Proof.
  intros Hxb. pose proof (Zfloor_bound x) as [Hlo Hhi].
  assert (Hfb : (Zfloor x ≤ b)%Z) by (apply le_IZR; lra).
  destruct (decide (Zfloor x = b)) as [Heq | Hne].
  - unfold round_half_even.
    destruct (Rlt_dec _ _) as [|Hn]; [lia|].
    exfalso. apply Hn. rewrite Heq. lra.
  - destruct (round_half_even_cases x) as [-> | ->]; lia.
Qed.

Lemma round1_tenth (k : Z) : round1 (IZR k / 10) = IZR k / 10.
Proof.
  unfold round1. replace (IZR k / 10 * 10) with (IZR k) by lra.
  by rewrite round_half_even_IZR.
Qed.

Lemma round1_is_tenth (x : R) : ∃ k : Z, round1 x = IZR k / 10.
Proof. by exists (round_half_even (x * 10)). Qed.

Lemma round1_lower (a : Z) (x : R) : IZR a / 10 <= x → IZR a / 10 <= round1 x.
Proof.
  intros Hax. unfold round1.
  assert (H : (a ≤ round_half_even (x * 10))%Z)
    by (apply round_half_even_lower; lra).
  apply IZR_le in H. lra.
Qed.

Lemma round1_upper (b : Z) (x : R) : x <= IZR b / 10 → round1 x <= IZR b / 10.
Proof.
  intros Hxb. unfold round1.
  assert (H : (round_half_even (x * 10) ≤ b)%Z)
    by (apply round_half_even_upper; lra).
  apply IZR_le in H. lra.
Qed.

(** ** Normalizers *)

Lemma ln_IZR_pos (n : Z) : (2 ≤ n)%Z → 0 < ln (IZR n).
Proof.
  intros Hn. apply IZR_le in Hn. rewrite <- ln_1.
  apply ln_increasing; lra.
Qed.

Lemma normalize_experience_range (years : Z) :
  (0 ≤ years)%Z → 0 <= normalize_experience years <= 100.
Proof.
  intros Hy. apply IZR_le in Hy. unfold normalize_experience, Rmin.
  destruct (Rle_dec _ _); lra.
Qed.

Lemma normalize_reviews_range (review_count : Z) :
  0 <= normalize_reviews review_count <= 100.
Proof.
  unfold normalize_reviews. destruct (Z.leb_spec review_count 1); [lra|].
  cbv zeta.
  assert (0 < ln (IZR review_count)) by (apply ln_IZR_pos; lia).
  assert (0 < ln (IZR 500)) by (apply ln_IZR_pos; lia).
  assert (0 < ln (IZR review_count) / ln (IZR 500)) by (by apply Rdiv_lt_0_compat).
  unfold Rmin. destruct (Rle_dec _ _); lra.
Qed.

Lemma normalize_rating_range (rating : R) :
  1 <= rating <= 5 → 0 <= normalize_rating rating <= 100.
Proof. unfold normalize_rating. lra. Qed.

Lemma normalize_speed_nonneg (speed_weeks : Z) : 0 <= normalize_speed speed_weeks.
Proof.
  unfold normalize_speed. cbv zeta.
  pose proof (Rmax_l 0 (IZR (6 - speed_weeks) / IZR (6 - 1))). lra.
Qed.

Lemma normalize_speed_range (speed_weeks : Z) :
  (1 ≤ speed_weeks)%Z → 0 <= normalize_speed speed_weeks <= 100.
Proof.
  intros Hw. split; [apply normalize_speed_nonneg|].
  unfold normalize_speed. cbv zeta. rewrite minus_IZR. apply IZR_le in Hw.
  change (IZR (6 - 1)) with 5. unfold Rmax. destruct (Rle_dec _ _); lra.
Qed.

Lemma price_mapping_lookup (band : string) :
  default 50 (price_mapping !! band) = standard_table band.
Proof.
  unfold price_mapping, standard_table.
  repeat (case_decide; [by simplify_map_eq|]).
  destruct (decide (band = "")); by simplify_map_eq.
Qed.

Lemma inverted_mapping_lookup (band : string) :
  default 50 (inverted_mapping !! band) = inverted_table band.
Proof.
  unfold inverted_mapping, inverted_table.
  repeat (case_decide; [by simplify_map_eq|]).
  destruct (decide (band = "")); by simplify_map_eq.
Qed.

Lemma normalize_price_range (band : string) (price_weight : R) :
  0 <= normalize_price band price_weight <= 100.
Proof.
  unfold normalize_price. cbv zeta.
  rewrite price_mapping_lookup, inverted_mapping_lookup.
  unfold standard_table, inverted_table.
  destruct (Rlt_dec _ _); repeat case_decide; lra.
Qed.

Lemma normalize_speed_formula (speed_weeks : Z) :
  normalize_speed speed_weeks = Rmax 0 ((6 - IZR speed_weeks) / 5) * 100.
Proof.
  unfold normalize_speed. cbv zeta. rewrite minus_IZR.
  by change (IZR (6 - 1)) with 5.
Qed.

(** C8, the input the claim gets wrong: at 0 weeks, a non-negative number
    of weeks, the speed normalizer returns 120, above the [0, 100] range. *)
Lemma normalize_speed_zero_weeks :
  normalize_speed 0 = 120 ∧ 100 < normalize_speed 0.
Proof.
  assert (H : normalize_speed 0 = 120).
  { rewrite normalize_speed_formula. unfold Rmax.
    destruct (Rle_dec _ _); lra. }
  rewrite H. split; [done | lra].
Qed.

(** C8 (as amended): each normalizer returns a value in [0, 100] on its
    valid inputs: non-negative years, any review count, a rating in [1, 5],
    any pricing band and, for speed, at least 1 week.  Experience is
    [min(years/20, 1)*100] and is 100 from 20 years on; reviews is 0 for a
    count of 0 or 1 and [min(ln(count)/ln(500), 1)*100] from 2 on; rating is
    [(rating - 1)/4*100], with 1 sent to 0 and 5 to 100; price is a value of
    one of the two tables; speed is [max(0, (6 - weeks)/5)*100], and 0 from
    6 weeks on. *)
Theorem normalizers_bounded
    (years review_count speed_weeks : Z) (rating price_weight : R) (band : string) :
  (0 ≤ years)%Z → 1 <= rating <= 5 → (1 ≤ speed_weeks)%Z →
  (normalize_experience years = Rmin (IZR years / 20) 1 * 100
   ∧ 0 <= normalize_experience years <= 100
   ∧ ((20 ≤ years)%Z → normalize_experience years = 100))
  ∧ (((review_count = 0 ∨ review_count = 1)%Z → normalize_reviews review_count = 0)
     ∧ ((2 ≤ review_count)%Z →
        normalize_reviews review_count
        = Rmin (ln (IZR review_count) / ln 500) 1 * 100)
     ∧ 0 <= normalize_reviews review_count <= 100)
  ∧ (normalize_rating rating = (rating - 1) / 4 * 100
     ∧ 0 <= normalize_rating rating <= 100
     ∧ normalize_rating 1 = 0 ∧ normalize_rating 5 = 100)
  ∧ ((normalize_price band price_weight = standard_table band
      ∨ normalize_price band price_weight = inverted_table band)
     ∧ 0 <= normalize_price band price_weight <= 100)
  ∧ (normalize_speed speed_weeks = Rmax 0 ((6 - IZR speed_weeks) / 5) * 100
     ∧ 0 <= normalize_speed speed_weeks <= 100
     ∧ ((6 ≤ speed_weeks)%Z → normalize_speed speed_weeks = 0)).
Proof.
  intros Hyears Hrating Hweeks. repeat split.
  - by apply normalize_experience_range.
  - by apply normalize_experience_range.
  - intros H20. apply IZR_le in H20. unfold normalize_experience, Rmin.
    destruct (Rle_dec _ _); lra.
  - intros [-> | ->]; reflexivity.
  - intros H2. unfold normalize_reviews.
    destruct (Z.leb_spec review_count 1); [lia | done].
  - apply normalize_reviews_range.
  - apply normalize_reviews_range.
  - unfold normalize_rating. lra.
  - unfold normalize_rating. lra.
  - unfold normalize_rating. lra.
  - unfold normalize_rating. lra.
  - unfold normalize_price. cbv zeta.
    rewrite price_mapping_lookup, inverted_mapping_lookup.
    destruct (Rlt_dec _ _); [by right | by left].
  - apply normalize_price_range.
  - apply normalize_price_range.
  - apply normalize_speed_formula.
  - apply normalize_speed_nonneg.
  - by apply normalize_speed_range.
  - intros H6. apply IZR_le in H6. rewrite normalize_speed_formula.
    unfold Rmax. destruct (Rle_dec _ _); lra.
Qed.

Lemma normalizers_bounded_witness :
  (normalize_experience 18 = Rmin (IZR 18 / 20) 1 * 100
   ∧ 0 <= normalize_experience 18 <= 100
   ∧ ((20 ≤ 18)%Z → normalize_experience 18 = 100))
  ∧ (((312 = 0 ∨ 312 = 1)%Z → normalize_reviews 312 = 0)
     ∧ ((2 ≤ 312)%Z →
        normalize_reviews 312 = Rmin (ln (IZR 312) / ln 500) 1 * 100)
     ∧ 0 <= normalize_reviews 312 <= 100)
  ∧ (normalize_rating 4.7 = (4.7 - 1) / 4 * 100
     ∧ 0 <= normalize_rating 4.7 <= 100
     ∧ normalize_rating 1 = 0 ∧ normalize_rating 5 = 100)
  ∧ ((normalize_price "$$$" 0.1 = standard_table "$$$"
      ∨ normalize_price "$$$" 0.1 = inverted_table "$$$")
     ∧ 0 <= normalize_price "$$$" 0.1 <= 100)
  ∧ (normalize_speed 2 = Rmax 0 ((6 - IZR 2) / 5) * 100
     ∧ 0 <= normalize_speed 2 <= 100
     ∧ ((6 ≤ 2)%Z → normalize_speed 2 = 0)).
Proof.
  apply (normalizers_bounded 18 312 2 4.7 0.1 "$$$"); [lia | lra | lia].
Defined.

Lemma normalize_price_high (band : string) (price_weight : R) :
  0.2 <= price_weight → normalize_price band price_weight = standard_table band.
Proof.
  intros Hw. unfold normalize_price. cbv zeta.
  rewrite price_mapping_lookup. destruct (Rlt_dec _ _); [lra | done].
Qed.

Lemma normalize_price_low (band : string) (price_weight : R) :
  price_weight < 0.2 → normalize_price band price_weight = inverted_table band.
Proof.
  intros Hw. unfold normalize_price. cbv zeta.
  rewrite inverted_mapping_lookup. destruct (Rlt_dec _ _); [done | lra].
Qed.

(** C4: the price normalizer returns the table 100/70/40/50 for the bands
    "$", "$$", "$$$" and any other band when the price weight is at least
    0.2, and the inverted table 60/80/100/50 when it is below 0.2.  When the
    request has no "price" weight the normalizer is called with 0.1, hence
    the inverted table, while the price term of the weighted sum is
    multiplied by 0; every other missing weight is 0 in the sum as well. *)
Theorem price_tables_and_default_weight
    (contractor : Contractor.t) (request : ScoreRequest.t)
    (band : string) (price_weight : R) :
  (0.2 <= price_weight → normalize_price band price_weight = standard_table band)
  ∧ (price_weight < 0.2 → normalize_price band price_weight = inverted_table band)
  ∧ (standard_table "$" = 100 ∧ standard_table "$$" = 70
     ∧ standard_table "$$$" = 40
     ∧ (band ∉ ["$"; "$$"; "$$$"] → standard_table band = 50))
  ∧ (inverted_table "$" = 60 ∧ inverted_table "$$" = 80
     ∧ inverted_table "$$$" = 100
     ∧ (band ∉ ["$"; "$$"; "$$$"] → inverted_table band = 50))
  ∧ (ScoreRequest.weights request !! "price" = None →
     price_score contractor request
     = inverted_table (Contractor.pricing_band contractor)
     ∧ weighted_score contractor request
       = exp_score contractor * weight request "experience" 0
         + review_score contractor * weight request "reviews" 0
         + rating_score contractor * weight request "rating" 0
         + speed_score contractor * weight request "speed" 0)
  ∧ (∀ key : string,
       ScoreRequest.weights request !! key = None → weight request key 0 = 0).
Proof.
  split; [apply normalize_price_high|]. split; [apply normalize_price_low|].
  split.
  { repeat split; try reflexivity.
    intros Hband. unfold standard_table.
    repeat (case_decide; [exfalso; apply Hband; set_solver|]). done. }
  split.
  { repeat split; try reflexivity.
    intros Hband. unfold inverted_table.
    repeat (case_decide; [exfalso; apply Hband; set_solver|]). done. }
  split.
  - intros Hnone.
    assert (Hp : price_score contractor request
                 = inverted_table (Contractor.pricing_band contractor)).
    { unfold price_score, weight. rewrite Hnone.
      apply normalize_price_low. simpl. lra. }
    split; [done|].
    unfold weighted_score. unfold weight at 4. rewrite Hnone. simpl. lra.
  - intros key Hnone. unfold weight. by rewrite Hnone.
Qed.

(** ** Score aggregator *)

Lemma weight_nonneg (request : ScoreRequest.t) (key : string) :
  map_Forall (fun _ w => 0 <= w) (ScoreRequest.weights request) →
  0 <= weight request key 0.
Proof.
  intros Hw. unfold weight.
  destruct (ScoreRequest.weights request !! key) as [w|] eqn:Hk; simpl.
  - by apply (Hw key).
  - lra.
Qed.

Lemma apply_project_type_multiplier
    (contractor : Contractor.t) (request : ScoreRequest.t) (score : R) :
  apply_project_type contractor request score
  = score * category_multiplier contractor request.
Proof.
  unfold apply_project_type, category_multiplier.
  repeat case_decide; lra.
Qed.

Lemma category_multiplier_pos (contractor : Contractor.t) (request : ScoreRequest.t) :
  0 < category_multiplier contractor request.
Proof. unfold category_multiplier. repeat case_decide; lra. Qed.

Lemma apply_flag_penalties_pow (flags : list string) (score : R) :
  apply_flag_penalties flags score = score * 0.9 ^ negative_flag_count flags.
Proof.
  unfold apply_flag_penalties, negative_flag_count.
  revert score. induction flags as [|flag flags IH]; intros score; simpl.
  - lra.
  - rewrite IH. case_decide.
    + rewrite filter_cons_True by done. simpl. lra.
    + by rewrite filter_cons_False by done.
Qed.

Lemma calculate_base_score_closed_form
    (contractor : Contractor.t) (request : ScoreRequest.t) :
  calculate_base_score contractor request
  = Rmin (weighted_score contractor request
          * category_multiplier contractor request
          * 0.9 ^ negative_flag_count (default [] (Contractor.flags contractor)))
         100.
Proof.
  unfold calculate_base_score. cbv zeta.
  by rewrite apply_flag_penalties_pow, apply_project_type_multiplier.
Qed.

Lemma calculate_base_score_cap (contractor : Contractor.t) (request : ScoreRequest.t) :
  calculate_base_score contractor request <= 100.
Proof. unfold calculate_base_score. cbv zeta. apply Rmin_r. Qed.

(** C5: the base score is the weighted sum of the five normalized values
    (a missing weight counting as 0), times 1.2 on a case-insensitive
    vertical/category match or 0.8 for a "handyman" vertical on a "roofing"
    or "siding" request, times 0.9 for each negative flag, and capped at 100
    last; for non-negative weights and a candidate with non-negative years
    and a rating of at least 1 the result lies in [0, 100]. *)
Theorem base_score_formula_and_bounds
    (contractor : Contractor.t) (request : ScoreRequest.t) :
  map_Forall (fun _ w => 0 <= w) (ScoreRequest.weights request) →
  (0 ≤ Contractor.years_in_business contractor)%Z →
  1 <= Contractor.rating contractor →
  calculate_base_score contractor request
  = Rmin
      ((normalize_experience (Contractor.years_in_business contractor)
          * default 0 (ScoreRequest.weights request !! "experience")
        + normalize_reviews (Contractor.review_count contractor)
          * default 0 (ScoreRequest.weights request !! "reviews")
        + normalize_rating (Contractor.rating contractor)
          * default 0 (ScoreRequest.weights request !! "rating")
        + normalize_price (Contractor.pricing_band contractor)
            (default 0.1 (ScoreRequest.weights request !! "price"))
          * default 0 (ScoreRequest.weights request !! "price")
        + normalize_speed (default 4%Z (Contractor.speed_weeks contractor))
          * default 0 (ScoreRequest.weights request !! "speed"))
       * category_multiplier contractor request
       * 0.9 ^ negative_flag_count (default [] (Contractor.flags contractor)))
      100
  ∧ 0 <= calculate_base_score contractor request <= 100.
Proof.
  intros Hweights Hyears Hrating.
  pose proof (calculate_base_score_closed_form contractor request) as Heq.
  split; [exact Heq|]. rewrite Heq.
  assert (Hsum : 0 <= weighted_score contractor request).
  { unfold weighted_score.
    pose proof (normalize_experience_range _ Hyears) as [He _].
    pose proof (normalize_reviews_range (Contractor.review_count contractor)) as [Hr _].
    pose proof (normalize_price_range (Contractor.pricing_band contractor)
                  (weight request "price" 0.1)) as [Hp _].
    pose proof (normalize_speed_nonneg
                  (default 4%Z (Contractor.speed_weeks contractor))) as Hs.
    assert (Ha : 0 <= rating_score contractor)
      by (unfold rating_score, normalize_rating; lra).
    pose proof (weight_nonneg request "experience" Hweights).
    pose proof (weight_nonneg request "reviews" Hweights).
    pose proof (weight_nonneg request "rating" Hweights).
    pose proof (weight_nonneg request "price" Hweights).
    pose proof (weight_nonneg request "speed" Hweights).
    repeat apply Rplus_le_le_0_compat; by apply Rmult_le_pos. }
  assert (Hpow : 0 <= 0.9 ^ negative_flag_count
                             (default [] (Contractor.flags contractor)))
    by (apply pow_le; lra).
  pose proof (category_multiplier_pos contractor request) as Hmult.
  assert (Hprod : 0 <= weighted_score contractor request
                       * category_multiplier contractor request
                       * 0.9 ^ negative_flag_count
                                 (default [] (Contractor.flags contractor))).
  { apply Rmult_le_pos; [apply Rmult_le_pos|]; lra. }
  unfold Rmin. destruct (Rle_dec _ _); lra.
Qed.

Lemma example_weights_nonneg : map_Forall (fun _ w => 0 <= w) example_weights.
Proof.
  unfold example_weights.
  repeat (apply map_Forall_insert_2; [lra|]).
  apply map_Forall_empty.
Qed.

Lemma base_score_formula_and_bounds_witness :
  map_Forall (fun _ w => 0 <= w) (ScoreRequest.weights example_request)
  ∧ (0 ≤ Contractor.years_in_business c1)%Z
  ∧ 1 <= Contractor.rating c1
  ∧ 0 <= calculate_base_score c1 example_request <= 100.
Proof.
  assert (H1 : map_Forall (fun _ w => 0 <= w) (ScoreRequest.weights example_request))
    by exact example_weights_nonneg.
  assert (H2 : (0 ≤ Contractor.years_in_business c1)%Z) by (simpl; lia).
  assert (H3 : 1 <= Contractor.rating c1) by (simpl; lra).
  repeat (split; [assumption|]).
  exact (proj2 (base_score_formula_and_bounds c1 example_request H1 H2 H3)).
Defined.

(** ** The end-to-end example *)

Lemma div_le_cross (x y z w : R) :
  0 < y → 0 < w → x * w <= z * y → x / y <= z / w.
Proof.
  intros Hy Hw H.
  apply Rmult_le_reg_r with (y * w); [nra|].
  replace (x / y * (y * w)) with (x * w) by (field; lra).
  replace (z / w * (y * w)) with (z * y) by (field; lra).
  done.
Qed.

Lemma ln_monotone (x y : R) : 0 < x → x <= y → ln x <= ln y.
Proof.
  intros Hx [Hlt | ->]; [|lra]. left. by apply ln_increasing.
Qed.

(** Comparing logarithms by comparing integer powers. *)
Lemma ln_pow_le (a b : Z) (p q : nat) :
  (0 < a)%Z → (0 < b)%Z → (a ^ Z.of_nat p ≤ b ^ Z.of_nat q)%Z →
  INR p * ln (IZR a) <= INR q * ln (IZR b).
Proof.
  intros Ha Hb Hpow. apply IZR_lt in Ha, Hb. apply IZR_le in Hpow.
  rewrite <- !pow_IZR in Hpow.
  rewrite <- !ln_pow by done.
  apply ln_monotone; [|done]. by apply pow_lt.
Qed.

Lemma log_ratio_lower (a : Z) (p q : nat) :
  (0 < q)%nat → (0 < a)%Z → (500 ^ Z.of_nat p ≤ a ^ Z.of_nat q)%Z →
  IZR (Z.of_nat p) / IZR (Z.of_nat q) <= ln (IZR a) / ln 500.
Proof.
  intros Hq Ha Hpow. rewrite <- !INR_IZR_INZ.
  apply div_le_cross.
  - by apply lt_0_INR.
  - apply ln_IZR_pos. lia.
  - pose proof (ln_pow_le 500 a p q ltac:(lia) Ha Hpow). lra.
Qed.

Lemma log_ratio_upper (a : Z) (p q : nat) :
  (0 < q)%nat → (0 < a)%Z → (a ^ Z.of_nat q ≤ 500 ^ Z.of_nat p)%Z →
  ln (IZR a) / ln 500 <= IZR (Z.of_nat p) / IZR (Z.of_nat q).
Proof.
  intros Hq Ha Hpow. rewrite <- !INR_IZR_INZ.
  apply div_le_cross.
  - apply ln_IZR_pos. lia.
  - by apply lt_0_INR.
  - pose proof (ln_pow_le a 500 q p Ha ltac:(lia) Hpow). lra.
Qed.

(** ln 164 / ln 500 is about 0.8206, ln 205 / ln 500 about 0.8565 and
    ln 59 / ln 500 about 0.6561. *)
Lemma normalize_reviews_164 : 80 <= normalize_reviews 164.
Proof.
  assert (H : 4 / 5 <= ln 164 / ln 500).
  { apply (log_ratio_lower 164 4 5); [lia | lia |].
    apply Z.leb_le. vm_compute. reflexivity. }
  unfold normalize_reviews. simpl. unfold Rmin. destruct (Rle_dec _ _); lra.
Qed.

Lemma normalize_reviews_205 : 85 <= normalize_reviews 205.
Proof.
  assert (H : 17 / 20 <= ln 205 / ln 500).
  { apply (log_ratio_lower 205 17 20); [lia | lia |].
    apply Z.leb_le. vm_compute. reflexivity. }
  unfold normalize_reviews. simpl. unfold Rmin. destruct (Rle_dec _ _); lra.
Qed.

Lemma normalize_reviews_59 : normalize_reviews 59 <= 66.
Proof.
  assert (H : ln 59 / ln 500 <= 33 / 50).
  { apply (log_ratio_upper 59 33 50); [lia | lia |].
    apply Z.leb_le. vm_compute. reflexivity. }
  unfold normalize_reviews. simpl. unfold Rmin. destruct (Rle_dec _ _); lra.
Qed.

Lemma example_weight_values :
  weight example_request "experience" 0 = 0.2
  ∧ weight example_request "reviews" 0 = 0.2
  ∧ weight example_request "rating" 0 = 0.3
  ∧ weight example_request "price" 0 = 0.1
  ∧ weight example_request "price" 0.1 = 0.1
  ∧ weight example_request "speed" 0 = 0.2.
Proof.
  unfold weight, example_request, example_weights. simpl ScoreRequest.weights.
  repeat split; by simplify_map_eq.
Qed.

Lemma normalize_experience_below_cap (years : Z) :
  (0 ≤ years ≤ 20)%Z → normalize_experience years = IZR years * 5.
Proof.
  intros [H0 H20]. apply IZR_le in H0, H20.
  unfold normalize_experience, Rmin. destruct (Rle_dec _ _); lra.
Qed.

Lemma normalize_speed_below_cap (speed_weeks : Z) :
  (speed_weeks ≤ 6)%Z → normalize_speed speed_weeks = (6 - IZR speed_weeks) * 20.
Proof.
  intros H6. apply IZR_le in H6. rewrite normalize_speed_formula.
  unfold Rmax. destruct (Rle_dec _ _); lra.
Qed.

Lemma contractors_cases (contractor : Contractor.t) :
  contractor ∈ CONTRACTORS →
  contractor = c1 ∨ contractor = c2 ∨ contractor = c3
  ∨ contractor = c4 ∨ contractor = c5.
Proof.
  unfold CONTRACTORS. rewrite !elem_of_cons, elem_of_nil. tauto.
Qed.

(** The weighted sums of the five contractors for the example request. *)
Lemma example_weighted_score (contractor : Contractor.t) :
  contractor ∈ CONTRACTORS →
  weighted_score contractor example_request
  = IZR (Contractor.years_in_business contractor)
    + normalize_reviews (Contractor.review_count contractor) * 0.2
    + (Contractor.rating contractor - 1) * 7.5
    + inverted_table (Contractor.pricing_band contractor) * 0.1
    + (6 - IZR (default 4%Z (Contractor.speed_weeks contractor))) * 4.
Proof.
  intros Hin. unfold weighted_score, exp_score, review_score, rating_score,
    price_score, speed_score.
  destruct example_weight_values as (-> & -> & -> & -> & -> & ->).
  rewrite normalize_price_low by lra.
  unfold normalize_rating.
  assert (Hy : (0 ≤ Contractor.years_in_business contractor ≤ 20)%Z).
  { destruct (contractors_cases _ Hin) as [H | [H | [H | [H | H]]]];
      subst contractor; simpl; lia. }
  assert (Hs : (default 4 (Contractor.speed_weeks contractor) ≤ 6)%Z).
  { destruct (contractors_cases _ Hin) as [H | [H | [H | [H | H]]]];
      subst contractor; simpl; lia. }
  rewrite normalize_experience_below_cap, normalize_speed_below_cap by done.
  lra.
Qed.

Lemma example_multipliers :
  category_multiplier c1 example_request = 1.2
  ∧ category_multiplier c4 example_request = 1.2
  ∧ category_multiplier c5 example_request = 1.2
  ∧ category_multiplier c2 example_request = 0.8
  ∧ category_multiplier c3 example_request = 1.
Proof.
  unfold category_multiplier. repeat split.
Qed.

Lemma example_flag_counts :
  negative_flag_count (default [] (Contractor.flags c1)) = 0%nat
  ∧ negative_flag_count (default [] (Contractor.flags c4)) = 0%nat
  ∧ negative_flag_count (default [] (Contractor.flags c5)) = 1%nat
  ∧ negative_flag_count (default [] (Contractor.flags c2)) = 1%nat
  ∧ negative_flag_count (default [] (Contractor.flags c3)) = 1%nat.
Proof. repeat split; vm_compute; reflexivity. Qed.

Lemma example_base_scores :
  calculate_base_score c1 example_request
  = Rmin ((71.75 + normalize_reviews 312 * 0.2) * 1.2) 100
  ∧ calculate_base_score c4 example_request
    = Rmin ((55.25 + normalize_reviews 164 * 0.2) * 1.2) 100
  ∧ calculate_base_score c5 example_request
    = Rmin ((49 + normalize_reviews 59 * 0.2) * 1.2 * 0.9) 100
  ∧ calculate_base_score c2 example_request
    = Rmin ((51.5 + normalize_reviews 128 * 0.2) * 0.8 * 0.9) 100
  ∧ calculate_base_score c3 example_request
    = Rmin ((58.5 + normalize_reviews 205 * 0.2) * 0.9) 100.
Proof.
  destruct example_multipliers as (M1 & M4 & M5 & M2 & M3).
  destruct example_flag_counts as (F1 & F4 & F5 & F2 & F3).
  rewrite !calculate_base_score_closed_form.
  rewrite M1, M2, M3, M4, M5, F1, F2, F3, F4, F5.
  rewrite !example_weighted_score by (unfold CONTRACTORS; set_solver).
  repeat split; f_equal; simpl; unfold inverted_table; simpl; lra.
Qed.

(** C2, the pair the claim gets wrong: for the example request c5 scores
    below c3 (about 67.1 against about 68.1), although c5 has the 1.2
    multiplier and c3 has not. *)
Lemma example_c5_below_c3 :
  calculate_base_score c5 example_request < calculate_base_score c3 example_request.
Proof.
  destruct example_base_scores as (_ & _ & -> & _ & ->).
  pose proof normalize_reviews_59. pose proof normalize_reviews_205.
  unfold Rmin. repeat destruct (Rle_dec _ _); lra.
Qed.

(** C2 (as amended): for the example request c1, c4 and c5 get the 1.2
    multiplier, c2 gets 0.8 and c3 none; c1 and c4 each score strictly
    above c2 and above c3, and c5 scores strictly above c2 and strictly
    below c3. *)
Theorem example_base_score_order :
  (category_multiplier c1 example_request = 1.2
   ∧ category_multiplier c4 example_request = 1.2
   ∧ category_multiplier c5 example_request = 1.2
   ∧ category_multiplier c2 example_request = 0.8
   ∧ category_multiplier c3 example_request = 1)
  ∧ calculate_base_score c2 example_request < calculate_base_score c1 example_request
  ∧ calculate_base_score c3 example_request < calculate_base_score c1 example_request
  ∧ calculate_base_score c2 example_request < calculate_base_score c4 example_request
  ∧ calculate_base_score c3 example_request < calculate_base_score c4 example_request
  ∧ calculate_base_score c2 example_request < calculate_base_score c5 example_request
  ∧ calculate_base_score c5 example_request < calculate_base_score c3 example_request.
Proof.
  split; [exact example_multipliers|].
  destruct example_base_scores as (-> & -> & -> & -> & ->).
  pose proof normalize_reviews_59. pose proof normalize_reviews_205.
  pose proof normalize_reviews_164.
  pose proof (normalize_reviews_range 312). pose proof (normalize_reviews_range 59).
  pose proof (normalize_reviews_range 128). pose proof (normalize_reviews_range 205).
  unfold Rmin. repeat destruct (Rle_dec _ _); repeat split; lra.
Qed.

(** ** Candidate ranker *)

Section StableSortFacts.
Context {A K : Type} (key : A → K) (lt : K → K → Prop) `{!RelDecision lt}.
Context `{!EqDecision K}.

Hypothesis lt_irrefl : ∀ a, ¬ lt a a.
Hypothesis lt_asym : ∀ a b, lt a b → ¬ lt b a.
Hypothesis lt_neg_trans : ∀ a b c, ¬ lt a b → ¬ lt b c → ¬ lt a c.

Lemma insert_reverse_perm (x : A) (l : list A) :
  insert_reverse key lt x l ≡ₚ x :: l.
Proof.
  induction l as [|y l IH]; simpl; [done|].
  case_decide; [|done]. rewrite IH. apply Permutation_swap.
Qed.

Lemma sort_reverse_perm (l : list A) : sort_reverse key lt l ≡ₚ l.
Proof.
  induction l as [|x l IH]; simpl; [done|].
  by rewrite insert_reverse_perm, IH.
Qed.

Lemma insert_reverse_sorted (x : A) (l : list A) :
  StronglySorted (not_below key lt) l →
  StronglySorted (not_below key lt) (insert_reverse key lt x l).
Proof.
  induction 1 as [|y l Hsorted IH Hall]; simpl.
  - by repeat constructor.
  - case_decide as Hlt.
    + constructor; [done|].
      rewrite insert_reverse_perm. constructor; [|done].
      by apply lt_asym.
    + constructor; [by constructor|].
      constructor; [done|].
      eapply Forall_impl; [exact Hall|]. intros z Hyz.
      by apply (lt_neg_trans _ (key y)).
Qed.

Lemma sort_reverse_sorted (l : list A) :
  StronglySorted (not_below key lt) (sort_reverse key lt l).
Proof.
  induction l as [|x l IH]; simpl; [constructor|].
  by apply insert_reverse_sorted.
Qed.

Lemma insert_reverse_stable (k : K) (x : A) (l : list A) :
  filter (fun y => key y = k) (insert_reverse key lt x l)
  = filter (fun y => key y = k) (x :: l).
Proof.
  induction l as [|y l IH]; simpl; [done|].
  case_decide as Hlt; [|done].
  destruct (decide (key x = k)) as [Hx | Hx].
  - assert (Hy : key y ≠ k).
    { intros Hy. apply (lt_irrefl k). by rewrite <- Hx at 1; rewrite <- Hy. }
    rewrite (filter_cons_False _ y) by done. rewrite IH.
    rewrite !(filter_cons_True _ x) by done.
    by rewrite (filter_cons_False _ y) by done.
  - rewrite (filter_cons_False _ x) by done.
    rewrite !(filter_cons _ y). rewrite IH.
    by rewrite (filter_cons_False _ x) by done.
Qed.

Lemma sort_reverse_stable (k : K) (l : list A) :
  filter (fun y => key y = k) (sort_reverse key lt l)
  = filter (fun y => key y = k) l.
Proof.
  induction l as [|x l IH]; simpl; [done|].
  rewrite insert_reverse_stable. rewrite !(filter_cons _ x). by rewrite IH.
Qed.

Hypothesis lt_antisym : ∀ a b, ¬ lt a b → ¬ lt b a → a = b.

(** A descending, stable arrangement of a list is unique: whatever stable
    sorting algorithm [list.sort] runs, its result is [sort_reverse]. *)
Lemma stable_sorted_unique (l1 l2 : list A) :
  l1 ≡ₚ l2 →
  StronglySorted (not_below key lt) l1 →
  StronglySorted (not_below key lt) l2 →
  (∀ k, filter (fun y => key y = k) l1 = filter (fun y => key y = k) l2) →
  l1 = l2.
Proof.
  revert l2. induction l1 as [|x l1 IH]; intros l2 Hperm Hs1 Hs2 Hstable.
  { by apply Permutation_nil_l in Hperm. }
  destruct l2 as [|y l2]; [by apply Permutation_nil_r in Hperm|].
  apply StronglySorted_inv in Hs1 as [Hs1 Hx].
  apply StronglySorted_inv in Hs2 as [Hs2 Hy].
  assert (Hkey : key x = key y).
  { assert (Hxin : x ∈ y :: l2) by (rewrite <- Hperm; apply list_elem_of_here).
    assert (Hyin : y ∈ x :: l1) by (rewrite Hperm; apply list_elem_of_here).
    apply elem_of_cons in Hxin as [-> | Hxin]; [done|].
    apply elem_of_cons in Hyin as [-> | Hyin]; [done|].
    rewrite Forall_forall in Hx, Hy.
    apply lt_antisym; [apply (Hx y Hyin) | apply (Hy x Hxin)]. }
  assert (Hxy : x = y).
  { pose proof (Hstable (key x)) as Hk.
    rewrite (filter_cons_True _ x) in Hk by done.
    rewrite (filter_cons_True _ y) in Hk by done.
    by injection Hk. }
  subst y. f_equal. apply IH; [by eapply Permutation_cons_inv | done | done |].
  intros k. pose proof (Hstable k) as Hk. rewrite !(filter_cons _ x) in Hk.
  destruct (decide (key x = k)); [by injection Hk | done].
Qed.

Lemma sort_reverse_unique (l l' : list A) :
  l' ≡ₚ l →
  StronglySorted (not_below key lt) l' →
  (∀ k, filter (fun y => key y = k) l' = filter (fun y => key y = k) l) →
  l' = sort_reverse key lt l.
Proof.
  intros Hperm Hsorted Hstable. apply stable_sorted_unique.
  - by rewrite sort_reverse_perm.
  - done.
  - apply sort_reverse_sorted.
  - intros k. by rewrite sort_reverse_stable.
Qed.

End StableSortFacts.

Lemma key_lt_irrefl (a : R * R * Z) : ¬ key_lt a a.
Proof. destruct a as [[a1 a2] a3]. unfold key_lt. intros H. intuition (lra || lia). Qed.

Lemma not_key_lt (a b : R * R * Z) :
  ¬ key_lt a b ↔
  b.1.1 < a.1.1
  ∨ (b.1.1 = a.1.1 ∧ (b.1.2 < a.1.2 ∨ (b.1.2 = a.1.2 ∧ (b.2 ≤ a.2)%Z))).
Proof.
  destruct a as [[a1 a2] a3], b as [[b1 b2] b3]. unfold key_lt. simpl.
  destruct (Rtotal_order a1 b1) as [H1 | [H1 | H1]];
    destruct (Rtotal_order a2 b2) as [H2 | [H2 | H2]];
    destruct (Z.lt_total a3 b3) as [H3 | [H3 | H3]];
    split; intros H; intuition (lra || lia).
Qed.

Lemma key_lt_asym (a b : R * R * Z) : key_lt a b → ¬ key_lt b a.
Proof.
  destruct a as [[a1 a2] a3], b as [[b1 b2] b3]. unfold key_lt.
  intros H H'. intuition (lra || lia).
Qed.

Lemma key_lt_neg_trans (a b c : R * R * Z) :
  ¬ key_lt a b → ¬ key_lt b c → ¬ key_lt a c.
Proof.
  rewrite !not_key_lt.
  destruct a as [[a1 a2] a3], b as [[b1 b2] b3], c as [[c1 c2] c3]. simpl.
  intros H H'.
  destruct (Rtotal_order a1 c1) as [H1 | [H1 | H1]];
    destruct (Rtotal_order a2 c2) as [H2 | [H2 | H2]];
    destruct (Z.lt_total a3 c3) as [H3 | [H3 | H3]];
    intuition (lra || lia).
Qed.

Lemma key_lt_antisym (a b : R * R * Z) : ¬ key_lt a b → ¬ key_lt b a → a = b.
Proof.
  rewrite !not_key_lt.
  destruct a as [[a1 a2] a3], b as [[b1 b2] b3]. simpl. intros H H'.
  assert (H1 : a1 = b1) by (destruct H as [?|[? _]], H' as [?|[? _]]; lra).
  subst b1.
  assert (H2 : a2 = b2).
  { destruct H as [?|[_ [?|[? _]]]], H' as [?|[_ [?|[? _]]]]; lra. }
  subst b2.
  assert (H3 : a3 = b3).
  { destruct H as [?|[_ [?|[_ ?]]]], H' as [?|[_ [?|[_ ?]]]]; lra || lia. }
  by subst b3.
Qed.

Lemma not_below_ranks_before (x y : Candidate.t) :
  not_below sort_key key_lt x y ↔ ranks_before x y.
Proof. unfold not_below, ranks_before. by rewrite not_key_lt. Qed.

Lemma StronglySorted_weaken {A : Type} (P Q : A → A → Prop) (l : list A) :
  (∀ x y, P x y → Q x y) → StronglySorted P l → StronglySorted Q l.
Proof.
  intros HPQ. induction 1 as [|x l Hsorted IH Hall]; constructor; [done|].
  eapply Forall_impl; [exact Hall|]. intros y. apply HPQ.
Qed.

Lemma StronglySorted_take {A : Type} (P : A → A → Prop) (n : nat) (l : list A) :
  StronglySorted P l → StronglySorted P (take n l).
Proof.
  intros Hsorted. revert n.
  induction Hsorted as [|x l Hsorted IH Hall]; intros [|n]; simpl;
    try constructor; [apply IH | by apply Forall_take].
Qed.

Lemma sorted_base_scores_sorted (pool : list Contractor.t) (request : ScoreRequest.t) :
  StronglySorted ranks_before (sorted_base_scores pool request).
Proof.
  eapply StronglySorted_weaken; [intros x y; apply not_below_ranks_before|].
  apply sort_reverse_sorted.
  - intros a b. apply key_lt_asym.
  - intros a b c. apply key_lt_neg_trans.
Qed.

Lemma top_candidates_length (pool : list Contractor.t) (request : ScoreRequest.t) :
  length (top_candidates pool request)
  = Nat.min 5 (length (available_contractors pool request)).
Proof.
  unfold top_candidates, sorted_base_scores.
  rewrite length_take, sort_reverse_perm, length_fmap. done.
Qed.

(** Any descending, stable arrangement of the scored records is the list
    the model computes. *)
Lemma sorted_base_scores_unique (pool : list Contractor.t) (request : ScoreRequest.t)
    (l : list Candidate.t) :
  l ≡ₚ base_score_entry request <$> available_contractors pool request →
  StronglySorted (not_below sort_key key_lt) l →
  (∀ k : R * R * Z,
     filter (fun x => sort_key x = k) l
     = filter (fun x => sort_key x = k)
         (base_score_entry request <$> available_contractors pool request)) →
  l = sorted_base_scores pool request.
Proof.
  intros Hperm Hsorted Hstable. unfold sorted_base_scores.
  apply (sort_reverse_unique (EqDecision0 := _) sort_key key_lt); try done.
  - apply key_lt_irrefl.
  - intros a b. apply key_lt_asym.
  - intros a b c. apply key_lt_neg_trans.
  - apply key_lt_antisym.
Qed.

(** C6: the ranker keeps exactly the candidates of the pool whose service
    area equals the requested city after lower-casing both (in pool order);
    the sorted list is a permutation of their scored records, in descending
    order of (base score, rating, review count), each record ranking before
    every later one by the tie-break hierarchy; records with the same
    three-part key keep their original relative order (the sort is stable);
    and the shortlist is the first 5 records of the sorted list. *)
Theorem candidate_ranker (pool : list Contractor.t) (request : ScoreRequest.t) :
  (∀ c, c ∈ available_contractors pool request
        ↔ c ∈ pool
          ∧ lower (Contractor.service_area c) = lower (ScoreRequest.city request))
  ∧ sublist (available_contractors pool request) pool
  ∧ sorted_base_scores pool request
    ≡ₚ base_score_entry request <$> available_contractors pool request
  ∧ StronglySorted ranks_before (sorted_base_scores pool request)
  ∧ (∀ k : R * R * Z,
       filter (fun x => sort_key x = k) (sorted_base_scores pool request)
       = filter (fun x => sort_key x = k)
           (base_score_entry request <$> available_contractors pool request))
  ∧ top_candidates pool request = take 5 (sorted_base_scores pool request)
  ∧ length (top_candidates pool request)
    = Nat.min 5 (length (available_contractors pool request)).
Proof.
  split; [intros c; unfold available_contractors; rewrite list_elem_of_filter; tauto|].
  split; [apply sublist_filter|].
  split; [apply sort_reverse_perm|].
  split; [apply sorted_base_scores_sorted|].
  split; [intros k; apply sort_reverse_stable, key_lt_irrefl|].
  split; [reflexivity | apply top_candidates_length].
Qed.

(** ** Refinement gate *)

Lemma dict_by_id_fmap {V : Type} (f : Candidate.t → V) (l : list Candidate.t) :
  dict_by_id f l = f <$> dict_by_id (fun c => c) l.
Proof.
  unfold dict_by_id.
  assert (Hgen : ∀ m : gmap string Candidate.t,
             foldl (fun d c => <[Candidate.id c := f c]> d) (f <$> m) l
             = f <$> foldl (fun d c => <[Candidate.id c := c]> d) m l).
  { induction l as [|c l IH]; intros m; simpl; [done|].
    rewrite <- fmap_insert. apply IH. }
  rewrite <- Hgen. by rewrite fmap_empty.
Qed.

Lemma dict_by_id_lookup_Some (l : list Candidate.t) (i : string) (c : Candidate.t) :
  dict_by_id (fun c => c) l !! i = Some c → c ∈ l ∧ Candidate.id c = i.
Proof.
  unfold dict_by_id.
  assert (Hgen : ∀ m : gmap string Candidate.t,
             foldl (fun d c => <[Candidate.id c := c]> d) m l !! i = Some c →
             (c ∈ l ∧ Candidate.id c = i) ∨ m !! i = Some c).
  { induction l as [|x l IH]; intros m; simpl; [by right|].
    intros H. destruct (IH _ H) as [[Hin Hid] | Hm].
    - left. split; [by right | done].
    - apply lookup_insert_Some in Hm as [[Hid ->] | [_ Hm]].
      + left. split; [by left | done].
      + by right. }
  intros H. destruct (Hgen ∅ H) as [? | Hempty]; [done|].
  by rewrite lookup_empty in Hempty.
Qed.

Lemma dict_by_id_lookup_None (l : list Candidate.t) (i : string) :
  dict_by_id (fun c => c) l !! i = None ↔ i ∉ Candidate.id <$> l.
Proof.
  unfold dict_by_id.
  assert (Hgen : ∀ m : gmap string Candidate.t,
             foldl (fun d c => <[Candidate.id c := c]> d) m l !! i = None
             ↔ m !! i = None ∧ i ∉ Candidate.id <$> l).
  { induction l as [|x l IH]; intros m; simpl.
    - split; [intros H; split; [done | apply not_elem_of_nil] | by intros [H _]].
    - rewrite IH, lookup_insert_None, not_elem_of_cons.
      split; intros H; intuition congruence. }
  rewrite Hgen, lookup_empty. tauto.
Qed.

Lemma base_score_lookup_found (l : list Candidate.t) (i : string) (c : Candidate.t) :
  dict_by_id (fun c => c) l !! i = Some c →
  dict_by_id Candidate.base_score l !! i = Some (Candidate.base_score c).
Proof.
  intros H. by rewrite (dict_by_id_fmap Candidate.base_score), lookup_fmap, H.
Qed.

Section Gate.
Context `{FloatOfStr}.

(** An entry whose identifier is in the shortlist, with a score that
    [float] accepts and a reasoning the model accepts, is kept. *)
Lemma process_entry_found (top : list Candidate.t) (m : gmap string json)
    (i : string) (c : Candidate.t) (suggested : R) (reasoning : option string) :
  default (JStr "") (m !! "id") = JStr i →
  dict_by_id (fun c => c) top !! i = Some c →
  py_float (default (JNum 0) (m !! "score")) = Some suggested →
  validate_reasoning (default (JStr "") (m !! "reasoning")) = Some reasoning →
  process_entry top (JObj m)
  = Some (Some (scored_contractor i c
                  (round1 (clamp_score (Candidate.base_score c) suggested))
                  reasoning)).
Proof.
  intros Hid Hfound Hscore Hreason. unfold process_entry. simpl.
  rewrite Hid, Hscore. simpl.
  rewrite (base_score_lookup_found _ _ _ Hfound), Hfound. simpl.
  by rewrite Hreason.
Qed.

(** Every record the loop appends comes from such an entry. *)
Lemma process_entry_Some (top : list Candidate.t) (e : json) (r : ScoredContractor.t) :
  process_entry top e = Some (Some r) →
  ∃ (m : gmap string json) (i : string) (c : Candidate.t) (suggested : R)
    (reasoning : option string),
    e = JObj m
    ∧ default (JStr "") (m !! "id") = JStr i
    ∧ dict_by_id (fun c => c) top !! i = Some c
    ∧ py_float (default (JNum 0) (m !! "score")) = Some suggested
    ∧ validate_reasoning (default (JStr "") (m !! "reasoning")) = Some reasoning
    ∧ r = scored_contractor i c
            (round1 (clamp_score (Candidate.base_score c) suggested)) reasoning.
Proof.
  unfold process_entry. intros Hr.
  destruct e as [| | | | |m]; try discriminate. simpl in Hr.
  destruct (py_float (default (JNum 0) (m !! "score"))) as [suggested|] eqn:Hs;
    [|discriminate]. simpl in Hr.
  destruct (default (JStr "") (m !! "id")) as [| | |i| |] eqn:Hid;
    try discriminate. simpl in Hr.
  destruct (dict_by_id (fun c => c) top !! i) as [c|] eqn:Hfound;
    [|discriminate].
  rewrite (base_score_lookup_found _ _ _ Hfound) in Hr. simpl in Hr.
  destruct (validate_reasoning (default (JStr "") (m !! "reasoning")))
    as [reasoning|] eqn:Hreason; [|discriminate].
  simpl in Hr. injection Hr as <-.
  by exists m, i, c, suggested, reasoning.
Qed.

(** An entry whose identifier is not a string of the shortlist is skipped,
    when its score is one that [float] accepts. *)
Lemma process_entry_unknown (top : list Candidate.t) (m : gmap string json)
    (i : string) (suggested : R) :
  default (JStr "") (m !! "id") = JStr i →
  i ∉ Candidate.id <$> top →
  py_float (default (JNum 0) (m !! "score")) = Some suggested →
  process_entry top (JObj m) = Some None.
Proof.
  intros Hid Hnot Hscore. unfold process_entry. simpl.
  rewrite Hid, Hscore. simpl.
  apply dict_by_id_lookup_None in Hnot.
  rewrite (dict_by_id_fmap Candidate.base_score), lookup_fmap, Hnot.
  done.
Qed.

(** The records of the loop are those of its passes, in order. *)
Lemma process_entries_mapM (top : list Candidate.t) (entries : list json)
    (records : list ScoredContractor.t) :
  process_entries top entries = Some records ↔
  ∃ passes, mapM (process_entry top) entries = Some passes
            ∧ records = omap (fun r => r) passes.
Proof.
  revert records. induction entries as [|e entries IH]; intros records; simpl.
  - split; [intros [= <-]; by exists [] | by intros (? & [= <-] & ->)].
  - destruct (process_entry top e) as [r|] eqn:He; simpl.
    + destruct (process_entries top entries) as [rest|] eqn:Hrest; simpl.
      * destruct (proj1 (IH rest) eq_refl) as (passes & Hp & ->).
        rewrite Hp. simpl. split.
        -- intros [= <-]. exists (r :: passes). split; [done|]. by destruct r.
        -- intros (? & [= <-] & ->). by destruct r.
      * split; [done|]. intros (ps & Hps & _).
        destruct (mapM (process_entry top) entries) as [passes|] eqn:Hp;
          [|discriminate].
        assert (Hcontra : (None : option (list ScoredContractor.t))
                          = Some (omap (fun r => r) passes))
          by (apply IH; by exists passes).
        discriminate.
    + split; [done | by intros (? & ? & _)].
Qed.

End Gate.

(** ** The end-to-end example through the ranker and the gate *)

Lemma normalize_reviews_312 : 60 <= normalize_reviews 312.
Proof.
  assert (H : 3 / 5 <= ln 312 / ln 500).
  { apply (log_ratio_lower 312 3 5); [lia | lia |].
    apply Z.leb_le. vm_compute. reflexivity. }
  unfold normalize_reviews. simpl. unfold Rmin. destruct (Rle_dec _ _); lra.
Qed.

Lemma example_base_score_c1 : calculate_base_score c1 example_request = 100.
Proof.
  destruct example_base_scores as (-> & _).
  pose proof normalize_reviews_312.
  unfold Rmin. destruct (Rle_dec _ _); lra.
Qed.

Lemma example_rounded_scores :
  round1 (calculate_base_score c1 example_request) = 100
  ∧ 85.5 <= round1 (calculate_base_score c4 example_request) <= 90.3
  ∧ 67.9 <= round1 (calculate_base_score c3 example_request) <= 70.7
  ∧ 52.9 <= round1 (calculate_base_score c5 example_request) <= 67.2
  ∧ round1 (calculate_base_score c2 example_request) <= 51.5.
Proof.
  split.
  { rewrite example_base_score_c1.
    replace 100 with (IZR 1000 / 10) by lra. apply round1_tenth. }
  destruct example_base_scores as (_ & -> & -> & -> & ->).
  pose proof normalize_reviews_59. pose proof normalize_reviews_205.
  pose proof normalize_reviews_164.
  pose proof (normalize_reviews_range 164). pose proof (normalize_reviews_range 59).
  pose proof (normalize_reviews_range 128). pose proof (normalize_reviews_range 205).
  repeat split.
  - apply Rle_trans with (IZR 855 / 10); [lra|]. apply round1_lower.
    unfold Rmin. destruct (Rle_dec _ _); lra.
  - apply Rle_trans with (IZR 903 / 10); [|lra]. apply round1_upper.
    unfold Rmin. destruct (Rle_dec _ _); lra.
  - apply Rle_trans with (IZR 679 / 10); [lra|]. apply round1_lower.
    unfold Rmin. destruct (Rle_dec _ _); lra.
  - apply Rle_trans with (IZR 707 / 10); [|lra]. apply round1_upper.
    unfold Rmin. destruct (Rle_dec _ _); lra.
  - apply Rle_trans with (IZR 529 / 10); [lra|]. apply round1_lower.
    unfold Rmin. destruct (Rle_dec _ _); lra.
  - apply Rle_trans with (IZR 672 / 10); [|lra]. apply round1_upper.
    unfold Rmin. destruct (Rle_dec _ _); lra.
  - apply Rle_trans with (IZR 515 / 10); [|lra]. apply round1_upper.
    unfold Rmin. destruct (Rle_dec _ _); lra.
Qed.

Lemma example_available_contractors :
  available_contractors CONTRACTORS example_request = CONTRACTORS.
Proof. reflexivity. Qed.

(** A record with a strictly lower rounded base score has the lower key. *)
Lemma key_lt_by_score (request : ScoreRequest.t) (x y : Contractor.t) :
  round1 (calculate_base_score x request) < round1 (calculate_base_score y request) →
  key_lt (sort_key (base_score_entry request x))
         (sort_key (base_score_entry request y))
  ∧ ¬ key_lt (sort_key (base_score_entry request y))
             (sort_key (base_score_entry request x)).
Proof.
  intros Hlt. unfold key_lt, sort_key, base_score_entry.
  cbn [Candidate.base_score Candidate.rating Candidate.review_count].
  split; [by left|]. intros [H | [H _]]; lra.
Qed.

(** The shortlist of the example: c1, c4, c3, c5, c2. *)
Lemma example_top_candidates :
  top_candidates CONTRACTORS example_request
  = base_score_entry example_request <$> [c1; c4; c3; c5; c2].
Proof.
  destruct example_rounded_scores as (B1 & B4 & B3 & B5 & B2).
  destruct (key_lt_by_score example_request c2 c1 ltac:(lra)) as [_ H12].
  destruct (key_lt_by_score example_request c3 c1 ltac:(lra)) as [_ H13].
  destruct (key_lt_by_score example_request c4 c1 ltac:(lra)) as [_ H14].
  destruct (key_lt_by_score example_request c5 c1 ltac:(lra)) as [_ H15].
  destruct (key_lt_by_score example_request c2 c3 ltac:(lra)) as [H23 _].
  destruct (key_lt_by_score example_request c2 c4 ltac:(lra)) as [H24 _].
  destruct (key_lt_by_score example_request c2 c5 ltac:(lra)) as [H25 _].
  destruct (key_lt_by_score example_request c3 c4 ltac:(lra)) as [H34 _].
  destruct (key_lt_by_score example_request c5 c3 ltac:(lra)) as [_ H35].
  destruct (key_lt_by_score example_request c5 c4 ltac:(lra)) as [_ H45].
  unfold top_candidates, sorted_base_scores.
  rewrite example_available_contractors.
  unfold CONTRACTORS, sort_reverse.
  cbn [fmap list_fmap foldr].
  repeat (cbn [insert_reverse];
          first [ rewrite decide_True by assumption
                | rewrite decide_False by assumption ]).
  reflexivity.
Qed.

(** ** What the shortlist holds *)

Lemma elem_of_take_elem_of {A : Type} (n : nat) (l : list A) (x : A) :
  x ∈ take n l → x ∈ l.
Proof.
  rewrite elem_of_take. intros (i & Hi & _). by eapply list_elem_of_lookup_2.
Qed.

Lemma top_candidates_elem (pool : list Contractor.t) (request : ScoreRequest.t)
    (c : Candidate.t) :
  c ∈ top_candidates pool request →
  ∃ contractor,
    contractor ∈ pool
    ∧ lower (Contractor.service_area contractor) = lower (ScoreRequest.city request)
    ∧ c = base_score_entry request contractor.
Proof.
  unfold top_candidates, sorted_base_scores. intros Hin.
  apply elem_of_take_elem_of in Hin. rewrite sort_reverse_perm in Hin.
  apply list_elem_of_fmap in Hin as (contractor & -> & Hin).
  unfold available_contractors in Hin. apply list_elem_of_filter in Hin as [Harea Hin].
  by exists contractor.
Qed.

Lemma top_candidates_tenth (pool : list Contractor.t) (request : ScoreRequest.t)
    (c : Candidate.t) :
  c ∈ top_candidates pool request → ∃ k : Z, Candidate.base_score c = IZR k / 10.
Proof.
  intros Hin. apply top_candidates_elem in Hin as (contractor & _ & _ & ->).
  simpl. apply round1_is_tenth.
Qed.

Lemma top_candidates_ids_NoDup (pool : list Contractor.t) (request : ScoreRequest.t) :
  NoDup (Contractor.id <$> pool) →
  NoDup (Candidate.id <$> top_candidates pool request).
Proof.
  intros Hpool. unfold top_candidates, sorted_base_scores.
  rewrite fmap_take. eapply sublist_NoDup; [|apply sublist_take].
  rewrite sort_reverse_perm. rewrite <- list_fmap_compose.
  eapply sublist_NoDup; [exact Hpool|].
  apply fmap_sublist, sublist_filter.
Qed.

Lemma NoDup_fmap_eq {A B : Type} (f : A → B) (l : list A) (x y : A) :
  NoDup (f <$> l) → x ∈ l → y ∈ l → f x = f y → x = y.
Proof.
  induction l as [|a l IH]; simpl; [by intros _ Hx; apply elem_of_nil in Hx|].
  rewrite NoDup_cons, !elem_of_cons. intros [Ha Hl] [-> | Hx] [-> | Hy] Hf.
  - done.
  - exfalso. apply Ha. rewrite Hf. apply list_elem_of_fmap. by exists y.
  - exfalso. apply Ha. rewrite <- Hf. apply list_elem_of_fmap. by exists x.
  - by apply IH.
Qed.

(** With distinct identifiers, looking up the identifier of a shortlist
    entry finds that entry. *)
Lemma dict_by_id_lookup_elem (l : list Candidate.t) (c : Candidate.t) :
  NoDup (Candidate.id <$> l) → c ∈ l →
  dict_by_id (fun c => c) l !! Candidate.id c = Some c.
Proof.
  intros Hnodup Hin.
  destruct (dict_by_id (fun c => c) l !! Candidate.id c) as [c'|] eqn:Hlook.
  - apply dict_by_id_lookup_Some in Hlook as [Hin' Hid].
    f_equal. by apply (NoDup_fmap_eq Candidate.id l).
  - apply dict_by_id_lookup_None in Hlook. exfalso. apply Hlook.
    apply list_elem_of_fmap. by exists c.
Qed.

Lemma clamp_score_bounds (base_score suggested_score : R) :
  base_score - 5 <= clamp_score base_score suggested_score <= base_score + 5.
Proof.
  unfold clamp_score. cbv zeta. unfold Rmax, Rmin.
  repeat destruct (Rle_dec _ _); lra.
Qed.

Lemma round1_clamp_bounds (k : Z) (suggested_score : R) :
  IZR k / 10 - 5 <= round1 (clamp_score (IZR k / 10) suggested_score)
  <= IZR k / 10 + 5.
Proof.
  pose proof (clamp_score_bounds (IZR k / 10) suggested_score) as [Hlo Hhi].
  split.
  - replace (IZR k / 10 - 5) with (IZR (k - 50) / 10)
      by (rewrite minus_IZR; lra).
    apply round1_lower. rewrite minus_IZR. lra.
  - replace (IZR k / 10 + 5) with (IZR (k + 50) / 10)
      by (rewrite plus_IZR; lra).
    apply round1_upper. rewrite plus_IZR. lra.
Qed.

(** A missing score is read as 0; clamping 0 gives a one-decimal number,
    which rounding leaves alone. *)
Lemma round1_clamp_zero (k : Z) :
  round1 (clamp_score (IZR k / 10) 0) = clamp_score (IZR k / 10) 0.
Proof.
  unfold clamp_score. cbv zeta. unfold Rmax, Rmin.
  repeat destruct (Rle_dec _ _).
  - replace 0 with (IZR 0 / 10) by lra. apply round1_tenth.
  - replace (IZR k / 10 + 5) with (IZR (k + 50) / 10)
      by (rewrite plus_IZR; lra).
    apply round1_tenth.
  - replace (IZR k / 10 - 5) with (IZR (k - 50) / 10)
      by (rewrite minus_IZR; lra).
    apply round1_tenth.
  - replace (IZR k / 10 - 5) with (IZR (k - 50) / 10)
      by (rewrite minus_IZR; lra).
    apply round1_tenth.
Qed.

(** ** The example replies *)

Lemma CONTRACTORS_ids_NoDup : NoDup (Contractor.id <$> CONTRACTORS).
Proof. compute_done. Qed.

Lemma example_c1_found :
  dict_by_id (fun c => c) (top_candidates CONTRACTORS example_request) !! "c1"
  = Some (base_score_entry example_request c1).
Proof.
  apply (dict_by_id_lookup_elem _ (base_score_entry example_request c1)).
  - apply top_candidates_ids_NoDup, CONTRACTORS_ids_NoDup.
  - rewrite example_top_candidates. apply list_elem_of_here.
Qed.

Lemma example_c9_unknown :
  "c9" ∉ Candidate.id <$> top_candidates CONTRACTORS example_request.
Proof. rewrite example_top_candidates. compute_done. Qed.

Lemma round1_97_25 : round1 97.25 = 97.2.
Proof.
  unfold round1, round_half_even.
  assert (Hfloor : Zfloor (97.25 * 10) = 972%Z) by (apply Zfloor_eq; lra).
  rewrite Hfloor. cbv zeta.
  destruct (Rlt_dec _ _); [lra|]. destruct (Rlt_dec _ _); [lra|].
  simpl. lra.
Qed.

Lemma example_c1_refined_score :
  round1 (clamp_score (Candidate.base_score (base_score_entry example_request c1)) 97.25)
  = 97.2.
Proof.
  destruct example_rounded_scores as (B1 & _). simpl. rewrite B1.
  assert (Hclamp : clamp_score 100 97.25 = 97.25).
  { unfold clamp_score. cbv zeta. unfold Rmax, Rmin.
    repeat destruct (Rle_dec _ _); lra. }
  rewrite Hclamp. apply round1_97_25.
Qed.

Lemma example_entry_c1_fields :
  default (JStr "") (example_entry_c1 !! "id") = JStr "c1"
  ∧ @py_float no_string_scores (default (JNum 0) (example_entry_c1 !! "score"))
    = Some 97.25
  ∧ validate_reasoning (default (JStr "") (example_entry_c1 !! "reasoning"))
    = Some (Some "Strong warranty record").
Proof. repeat split. Qed.

Lemma example_reply_response :
  @score_contractors_with_openai no_string_scores example_request
    (Parsed example_reply)
  = Ok [scored_contractor "c1" (base_score_entry example_request c1) 97.2
          (Some "Strong warranty record")].
Proof.
  unfold score_contractors_with_openai, score_pool, validate_response,
    example_reply.
  cbn [py_get py_iter mbind option_bind process_entries].
  rewrite lookup_singleton_eq.
  cbn [default from_option Datatypes.id py_iter mbind option_bind process_entries].
  destruct example_entry_c1_fields as (Hid & Hscore & Hreason).
  rewrite (process_entry_found _ example_entry_c1
             "c1" (base_score_entry example_request c1)
             97.25 (Some "Strong warranty record"));
    [| exact Hid | apply example_c1_found | exact Hscore | exact Hreason].
  rewrite (process_entry_unknown _ example_entry_c9 "c9" 80);
    [| reflexivity | apply example_c9_unknown | reflexivity].
  cbn [mbind option_bind take]. by rewrite example_c1_refined_score.
Qed.

(** ** The refinement gate: claims *)

Lemma scored_contractor_same_attributes (c : Candidate.t) (score : R)
    (reasoning : option string) :
  same_attributes (scored_contractor (Candidate.id c) c score reasoning) c.
Proof. unfold same_attributes. by repeat split. Qed.

Lemma process_entry_other_keys `{FloatOfStr} (top : list Candidate.t)
    (m : gmap string json) (k : string) (v : json) :
  k ∉ ["id"; "score"; "reasoning"] →
  process_entry top (JObj (<[k := v]> m)) = process_entry top (JObj m).
Proof.
  intros Hk. unfold process_entry. simpl.
  rewrite !lookup_insert_ne by (intros ->; apply Hk; set_solver). done.
Qed.

(** C1, the case the claim gets wrong: when the call to the model raises,
    the endpoint answers with the HTTP 500 of its outer handler, not with
    the fallback. *)
Lemma call_failure_gives_http_500 :
  @score_contractors_with_openai no_string_scores example_request CallRaised
  = HTTP500.
Proof. reflexivity. Qed.

(** C1 (as amended): for every request, a reply that does not parse as JSON
    is recovered by the fallback path, which returns a response built from
    the shortlist; a call that raises (refiner unreachable, timeout) is not
    recovered: the endpoint answers HTTP 500. *)
Theorem refiner_failure_handling `{FloatOfStr} (request : ScoreRequest.t) :
  score_contractors_with_openai request NotJson
  = Ok (fallback_contractors (top_candidates CONTRACTORS request))
  ∧ score_contractors_with_openai request CallRaised = HTTP500.
Proof. split; reflexivity. Qed.

(** C3, the case the claim gets wrong: for the example request the
    shortlist's base score of c1 is 100; a suggested 97.25 is inside the
    band, so the clamp leaves it at 97.25, but the response carries 97.2:
    the clamped score is rounded to one decimal. *)
Lemma example_refined_score_rounded :
  @score_contractors_with_openai no_string_scores example_request
    (Parsed example_reply)
  = Ok [scored_contractor "c1" (base_score_entry example_request c1) 97.2
          (Some "Strong warranty record")]
  ∧ Candidate.base_score (base_score_entry example_request c1) = 100
  ∧ Rmax (100 - 5) (Rmin 97.25 (100 + 5)) = 97.25
  ∧ 97.2 < 97.25.
Proof.
  split; [exact example_reply_response|].
  split; [apply example_rounded_scores|].
  split; [|lra].
  unfold Rmax, Rmin. repeat destruct (Rle_dec _ _); lra.
Qed.

(** C3 (as amended): for an entry of the reply whose identifier is that of a
    shortlist entry with base score B (identifiers in the pool being
    distinct), and whose score reads as the number S, the record's score is
    max(B - 5, min(S, B + 5)) rounded to one decimal; it lies in
    [B - 5, B + 5] whatever S is; its attributes are the shortlist entry's;
    and no key of the entry other than "id", "score" and "reasoning" (such
    as a base score stated by the refiner) has any effect. *)
Theorem gate_clamp `{FloatOfStr} (pool : list Contractor.t) (request : ScoreRequest.t)
    (m : gmap string json) (c : Candidate.t) (suggested : R)
    (reasoning : option string) :
  NoDup (Contractor.id <$> pool) →
  c ∈ top_candidates pool request →
  default (JStr "") (m !! "id") = JStr (Candidate.id c) →
  py_float (default (JNum 0) (m !! "score")) = Some suggested →
  validate_reasoning (default (JStr "") (m !! "reasoning")) = Some reasoning →
  ∃ r : ScoredContractor.t,
    process_entry (top_candidates pool request) (JObj m) = Some (Some r)
    ∧ same_attributes r c
    ∧ ScoredContractor.score r
      = round1 (Rmax (Candidate.base_score c - 5)
                     (Rmin suggested (Candidate.base_score c + 5)))
    ∧ Candidate.base_score c - 5 <= ScoredContractor.score r
      <= Candidate.base_score c + 5
    ∧ (∀ (k : string) (v : json),
         k ∉ ["id"; "score"; "reasoning"] →
         process_entry (top_candidates pool request) (JObj (<[k := v]> m))
         = process_entry (top_candidates pool request) (JObj m)).
Proof.
  intros Hpool Hin Hid Hscore Hreason.
  pose proof (dict_by_id_lookup_elem _ c
                (top_candidates_ids_NoDup pool request Hpool) Hin) as Hfound.
  eexists. split; [by apply process_entry_found|].
  split; [apply scored_contractor_same_attributes|].
  split; [reflexivity|].
  split; [|intros k v Hk; by apply process_entry_other_keys].
  destruct (top_candidates_tenth pool request c Hin) as [k ->].
  apply round1_clamp_bounds.
Qed.

Lemma example_c1_shortlisted :
  base_score_entry example_request c1 ∈ top_candidates CONTRACTORS example_request.
Proof. rewrite example_top_candidates. apply list_elem_of_here. Qed.

Lemma gate_clamp_witness :
  ∃ r : ScoredContractor.t,
    @process_entry no_string_scores (top_candidates CONTRACTORS example_request)
      (JObj example_entry_c1)
    = Some (Some r)
    ∧ same_attributes r (base_score_entry example_request c1)
    ∧ ScoredContractor.score r
      = round1 (Rmax (Candidate.base_score (base_score_entry example_request c1) - 5)
                     (Rmin 97.25
                        (Candidate.base_score (base_score_entry example_request c1) + 5)))
    ∧ Candidate.base_score (base_score_entry example_request c1) - 5
      <= ScoredContractor.score r
      <= Candidate.base_score (base_score_entry example_request c1) + 5.
Proof.
  destruct example_entry_c1_fields as (Hid & Hscore & Hreason).
  destruct (@gate_clamp no_string_scores CONTRACTORS example_request
              example_entry_c1 (base_score_entry example_request c1) 97.25
              (Some "Strong warranty record")
              CONTRACTORS_ids_NoDup example_c1_shortlisted Hid Hscore Hreason)
    as (r & Hr & Hattrs & Hband & Hrange & _).
  by exists r.
Defined.

(** C7: every record of a response carries the identifier and the stored
    attributes of a shortlist entry.  When the reply parsed, the records are
    the first 3 of those the loop kept, in the order of the reply's
    entries; an entry whose identifier is not in the shortlist contributes
    no record; and no key of an entry other than "id", "score" and
    "reasoning" (the attribute fields the refiner echoes) has any effect. *)
Theorem final_records_from_shortlist `{FloatOfStr}
    (pool : list Contractor.t) (request : ScoreRequest.t)
    (gpt : refiner_outcome) (records : list ScoredContractor.t) :
  score_pool pool request gpt = Ok records →
  (length records ≤ 3)%nat
  ∧ (∀ r, r ∈ records →
       ∃ c, c ∈ top_candidates pool request ∧ same_attributes r c)
  ∧ (∀ v, gpt = Parsed v →
       ∃ (entries : list json) (passes : list (option ScoredContractor.t)),
         py_get v "top_contractors" (JArr []) ≫= py_iter = Some entries
         ∧ mapM (process_entry (top_candidates pool request)) entries = Some passes
         ∧ records = take 3 (omap (fun r => r) passes)
         ∧ (∀ (k : nat) (m : gmap string json) (i : string),
              entries !! k = Some (JObj m) →
              default (JStr "") (m !! "id") = JStr i →
              i ∉ Candidate.id <$> top_candidates pool request →
              passes !! k = Some None)
         ∧ (∀ (m : gmap string json) (k : string) (w : json),
              k ∉ ["id"; "score"; "reasoning"] →
              process_entry (top_candidates pool request) (JObj (<[k := w]> m))
              = process_entry (top_candidates pool request) (JObj m))).
Proof.
  intros Hok. unfold score_pool in Hok.
  destruct gpt as [| |v]; [discriminate| |].
  - (* the fallback *)
    injection Hok as <-. unfold fallback_contractors.
    split; [rewrite length_fmap, length_take; lia|].
    split; [|intros v [=]].
    intros r Hr. apply list_elem_of_fmap in Hr as (c & -> & Hc).
    exists c. split; [by eapply elem_of_take_elem_of|].
    apply scored_contractor_same_attributes.
  - (* the validated reply *)
    destruct (validate_response (top_candidates pool request) v)
      as [top_contractors|] eqn:Hval; [|discriminate].
    injection Hok as ->. unfold validate_response in Hval.
    destruct (py_get v "top_contractors" (JArr []) ≫= py_iter)
      as [entries|] eqn:Hentries; [|discriminate].
    simpl in Hval.
    destruct (process_entries (top_candidates pool request) entries)
      as [kept|] eqn:Hkept; [|discriminate].
    simpl in Hval. injection Hval as <-.
    apply process_entries_mapM in Hkept as (passes & Hpasses & ->).
    split; [rewrite length_take; lia|].
    split.
    + intros r Hr. apply elem_of_take_elem_of in Hr.
      apply list_elem_of_omap in Hr as (p & Hp & ->).
      apply mapM_Some in Hpasses.
      apply list_elem_of_lookup in Hp as [k Hk].
      destruct (Forall2_lookup_r _ _ _ _ _ Hpasses Hk) as (e & _ & He).
      apply process_entry_Some in He
        as (m & i & c & suggested & reasoning & _ & _ & Hfound & _ & _ & ->).
      apply dict_by_id_lookup_Some in Hfound as [Hin <-].
      exists c. split; [done | apply scored_contractor_same_attributes].
    + intros v' [= <-]. exists entries, passes.
      split; [done|]. split; [done|]. split; [done|].
      split; [|intros m k w Hk; by apply process_entry_other_keys].
      intros k m i Hk Hid Hnot.
      apply mapM_Some in Hpasses.
      destruct (Forall2_lookup_l _ _ _ _ _ Hpasses Hk) as ([r|] & Hp & He);
        [|done].
      exfalso. apply process_entry_Some in He
        as (m' & i' & c & _ & _ & [= <-] & Hid' & Hfound & _).
      rewrite Hid in Hid'. injection Hid' as <-.
      apply dict_by_id_lookup_Some in Hfound as [Hin <-].
      apply Hnot, list_elem_of_fmap. by exists c.
Qed.

Lemma final_records_from_shortlist_witness :
  @score_pool no_string_scores CONTRACTORS example_request (Parsed example_reply)
  = Ok [scored_contractor "c1" (base_score_entry example_request c1) 97.2
          (Some "Strong warranty record")]
  ∧ (length [scored_contractor "c1" (base_score_entry example_request c1) 97.2
               (Some "Strong warranty record")] ≤ 3)%nat
  ∧ (∀ r, r ∈ [scored_contractor "c1" (base_score_entry example_request c1) 97.2
                 (Some "Strong warranty record")] →
       ∃ c, c ∈ top_candidates CONTRACTORS example_request ∧ same_attributes r c).
Proof.
  pose proof example_reply_response as Hresponse.
  unfold score_contractors_with_openai in Hresponse.
  split; [exact Hresponse|].
  destruct (@final_records_from_shortlist no_string_scores CONTRACTORS
              example_request (Parsed example_reply) _ Hresponse)
    as (Hlength & Hrecords & _).
  by split.
Defined.

(** C9: when the reply does not parse as JSON, the response is built from
    the first 3 entries of the shortlist, which is in descending base-score
    order: it has min(3, shortlist size) records, and the k-th record
    carries the k-th shortlist entry's identifier and attributes, a score
    equal to that entry's base score (the one-decimal rounding of the
    contractor's computed base score, with no adjustment) and the reasoning
    "Base score (GPT adjustment failed)". *)
Theorem fallback_response `{FloatOfStr}
    (pool : list Contractor.t) (request : ScoreRequest.t) :
  score_pool pool request NotJson
  = Ok (fallback_contractors (top_candidates pool request))
  ∧ length (fallback_contractors (top_candidates pool request))
    = Nat.min 3 (length (top_candidates pool request))
  ∧ StronglySorted ranks_before (top_candidates pool request)
  ∧ (∀ (k : nat) (r : ScoredContractor.t),
       fallback_contractors (top_candidates pool request) !! k = Some r →
       ∃ c contractor,
         top_candidates pool request !! k = Some c
         ∧ (k < 3)%nat
         ∧ contractor ∈ pool
         ∧ c = base_score_entry request contractor
         ∧ same_attributes r c
         ∧ ScoredContractor.score r = Candidate.base_score c
         ∧ Candidate.base_score c = round1 (calculate_base_score contractor request)
         ∧ ScoredContractor.reasoning r = Some "Base score (GPT adjustment failed)").
Proof.
  split; [reflexivity|].
  split; [unfold fallback_contractors; by rewrite length_fmap, length_take|].
  split.
  { apply StronglySorted_take, sorted_base_scores_sorted. }
  intros k r Hr. unfold fallback_contractors in Hr.
  rewrite list_lookup_fmap in Hr.
  destruct (take 3 (top_candidates pool request) !! k) as [c|] eqn:Hc;
    [|discriminate].
  injection Hr as <-. apply lookup_take_Some in Hc as [Hc Hk].
  destruct (top_candidates_elem pool request c) as (contractor & Hin & _ & ->).
  { by eapply list_elem_of_lookup_2. }
  exists (base_score_entry request contractor), contractor.
  repeat split; done.
Qed.

(** C10: an entry of the reply with the identifier of a shortlist entry
    (identifiers in the pool being distinct) and no "score" key is kept:
    the missing score is read as 0 and clamped, so the record's score is
    max(B - 5, min(0, B + 5)) for the entry's base score B (rounding leaves
    this one-decimal number alone), which is B - 5 when B is at least 5;
    a reply made of that entry alone yields that record. *)
Theorem missing_score_reads_as_zero `{FloatOfStr}
    (pool : list Contractor.t) (request : ScoreRequest.t)
    (m : gmap string json) (c : Candidate.t) (reasoning : option string) :
  NoDup (Contractor.id <$> pool) →
  c ∈ top_candidates pool request →
  m !! "id" = Some (JStr (Candidate.id c)) →
  m !! "score" = None →
  validate_reasoning (default (JStr "") (m !! "reasoning")) = Some reasoning →
  process_entry (top_candidates pool request) (JObj m)
  = Some (Some (scored_contractor (Candidate.id c) c
                  (Rmax (Candidate.base_score c - 5)
                        (Rmin 0 (Candidate.base_score c + 5)))
                  reasoning))
  ∧ (5 <= Candidate.base_score c →
     Rmax (Candidate.base_score c - 5) (Rmin 0 (Candidate.base_score c + 5))
     = Candidate.base_score c - 5)
  ∧ score_pool pool request
      (Parsed (JObj {[ "top_contractors" := JArr [JObj m] ]}))
    = Ok [scored_contractor (Candidate.id c) c
            (Rmax (Candidate.base_score c - 5)
                  (Rmin 0 (Candidate.base_score c + 5)))
            reasoning].
Proof.
  intros Hpool Hin Hid Hscore Hreason.
  pose proof (dict_by_id_lookup_elem _ c
                (top_candidates_ids_NoDup pool request Hpool) Hin) as Hfound.
  assert (Hentry :
    process_entry (top_candidates pool request) (JObj m)
    = Some (Some (scored_contractor (Candidate.id c) c
                    (Rmax (Candidate.base_score c - 5)
                          (Rmin 0 (Candidate.base_score c + 5)))
                    reasoning))).
  { rewrite (process_entry_found _ m (Candidate.id c) c 0 reasoning);
      [| by rewrite Hid | done | by rewrite Hscore | done].
    destruct (top_candidates_tenth pool request c Hin) as [k Hk].
    rewrite Hk, round1_clamp_zero. reflexivity. }
  split; [exact Hentry|]. split.
  - intros HB. unfold Rmax, Rmin. repeat destruct (Rle_dec _ _); lra.
  - unfold score_pool, validate_response.
    cbn [py_get]. rewrite lookup_singleton_eq.
    cbn [default from_option Datatypes.id py_iter mbind option_bind
         process_entries].
    rewrite Hentry. reflexivity.
Qed.

Lemma example_entry_no_score_fields :
  example_entry_no_score !! "id" = Some (JStr "c1")
  ∧ example_entry_no_score !! "score" = None
  ∧ validate_reasoning (default (JStr "") (example_entry_no_score !! "reasoning"))
    = Some (Some "").
Proof. repeat split. Qed.

Lemma missing_score_reads_as_zero_witness :
  @score_pool no_string_scores CONTRACTORS example_request
    (Parsed example_reply_no_score)
  = Ok [scored_contractor "c1" (base_score_entry example_request c1)
          (Rmax (Candidate.base_score (base_score_entry example_request c1) - 5)
                (Rmin 0 (Candidate.base_score (base_score_entry example_request c1) + 5)))
          (Some "")].
Proof.
  destruct example_entry_no_score_fields as (Hid & Hscore & Hreason).
  exact (proj2 (proj2
    (@missing_score_reads_as_zero no_string_scores CONTRACTORS example_request
       example_entry_no_score (base_score_entry example_request c1) (Some "")
       CONTRACTORS_ids_NoDup example_c1_shortlisted Hid Hscore Hreason))).
Defined.

(** The example request through the fallback: the three records are those
    of c1, c4 and c3. *)
Lemma example_fallback_response :
  @score_contractors_with_openai no_string_scores example_request NotJson
  = Ok (fallback_contractor
          <$> (base_score_entry example_request <$> [c1; c4; c3])).
Proof.
  unfold score_contractors_with_openai, score_pool, fallback_contractors.
  by rewrite example_top_candidates.
Qed.

(* ===================================================================== *)
(** * Part III.  Further properties of the endpoint                       *)
(* ===================================================================== *)

(** ** Replies of the wrong shape *)

Lemma process_entries_fails `{FloatOfStr} (top : list Candidate.t)
    (entries : list json) (e : json) :
  e ∈ entries → process_entry top e = None → process_entries top entries = None.
Proof.
  intros Hin Hfail. induction entries as [|e' entries IH]; simpl.
  - by apply elem_of_nil in Hin.
  - apply elem_of_cons in Hin as [<- | Hin].
    + by rewrite Hfail.
    + rewrite (IH Hin). by destruct (process_entry top e').
Qed.

Lemma process_entry_string `{FloatOfStr} (top : list Candidate.t) (s : string) :
  process_entry top (JStr s) = None.
Proof. reflexivity. Qed.

(** X1: a reply that parses as JSON but is not an object (a list, a
    string, a number, a boolean, null) is not recovered by the fallback:
    the endpoint answers HTTP 500. *)
Theorem non_object_reply_is_http_500 `{FloatOfStr}
    (pool : list Contractor.t) (request : ScoreRequest.t) (v : json) :
  (∀ m, v ≠ JObj m) →
  score_pool pool request (Parsed v) = HTTP500.
Proof.
  intros Hv. unfold score_pool, validate_response.
  destruct v as [| | | | |m]; try reflexivity. by destruct (Hv m).
Qed.

Lemma non_object_reply_is_http_500_witness :
  @score_pool no_string_scores CONTRACTORS example_request (Parsed (JArr []))
  = HTTP500.
Proof.
  apply (@non_object_reply_is_http_500 no_string_scores CONTRACTORS
           example_request (JArr [])).
  intros m. discriminate.
Defined.

(** X2: a reply object with no "top_contractors" key, or whose
    "top_contractors" is an empty list, an empty string or an empty object,
    gives a response with no records, not an error and not the fallback. *)
Theorem reply_without_entries `{FloatOfStr}
    (pool : list Contractor.t) (request : ScoreRequest.t) (m : gmap string json) :
  default (JArr []) (m !! "top_contractors") = JArr []
  ∨ default (JArr []) (m !! "top_contractors") = JStr ""
  ∨ default (JArr []) (m !! "top_contractors") = JObj ∅ →
  score_pool pool request (Parsed (JObj m)) = Ok [].
Proof.
  intros Hm. unfold score_pool, validate_response. cbn [py_get mbind option_bind].
  destruct Hm as [-> | [-> | ->]]; reflexivity.
Qed.

Lemma reply_without_entries_witness :
  @score_pool no_string_scores CONTRACTORS example_request (Parsed (JObj ∅))
  = Ok [].
Proof.
  apply (@reply_without_entries no_string_scores CONTRACTORS example_request ∅).
  left. reflexivity.
Defined.

(** X3: a reply object whose "top_contractors" is null, a boolean, a
    number, a non-empty string or a non-empty object makes the endpoint
    answer HTTP 500: the value cannot be iterated, or iterating it yields
    strings, which have no [.get]. *)
Theorem reply_with_non_list_entries `{FloatOfStr}
    (pool : list Contractor.t) (request : ScoreRequest.t)
    (m : gmap string json) (v : json) :
  m !! "top_contractors" = Some v →
  not_entries v →
  score_pool pool request (Parsed (JObj m)) = HTTP500.
Proof.
  intros Hm Hv. unfold score_pool, validate_response.
  cbn [py_get mbind option_bind]. rewrite Hm.
  cbn [default from_option Datatypes.id].
  destruct v as [| | |s|l|m']; try reflexivity; cbn [py_iter mbind option_bind].
  - destruct s as [|a s]; [done|]. reflexivity.
  - contradiction.
  - destruct (map_to_list m') as [|[k w] kvs] eqn:Hlist.
    + by apply map_to_list_empty_iff in Hlist.
    + reflexivity.
Qed.

Lemma reply_with_non_list_entries_witness :
  @score_pool no_string_scores CONTRACTORS example_request
    (Parsed (JObj {[ "top_contractors" := JStr "c1" ]}))
  = HTTP500.
Proof.
  apply (@reply_with_non_list_entries no_string_scores CONTRACTORS
           example_request {[ "top_contractors" := JStr "c1" ]} (JStr "c1")).
  - reflexivity.
  - simpl. discriminate.
Defined.

(** X4: [float] is applied to an entry's score before its identifier is
    looked up, and every entry of the reply is processed before the cut to
    3: one entry whose score [float] rejects (null, a list, an object, a
    string that is no number), whatever its identifier and its position,
    makes the endpoint answer HTTP 500. *)
Theorem bad_score_fails_request `{FloatOfStr}
    (pool : list Contractor.t) (request : ScoreRequest.t)
    (m : gmap string json) (entries : list json) (e : gmap string json) :
  m !! "top_contractors" = Some (JArr entries) →
  JObj e ∈ entries →
  py_float (default (JNum 0) (e !! "score")) = None →
  score_pool pool request (Parsed (JObj m)) = HTTP500.
Proof.
  intros Hm Hin Hscore. unfold score_pool, validate_response.
  cbn [py_get mbind option_bind]. rewrite Hm.
  cbn [default from_option Datatypes.id py_iter mbind option_bind].
  rewrite (process_entries_fails _ entries (JObj e) Hin); [done|].
  unfold process_entry. cbn [py_get mbind option_bind]. by rewrite Hscore.
Qed.

Lemma bad_score_fails_request_witness :
  @score_pool no_string_scores CONTRACTORS example_request
    (Parsed example_reply_null_score)
  = HTTP500.
Proof.
  apply (@bad_score_fails_request no_string_scores CONTRACTORS example_request
           {[ "top_contractors" :=
                JArr [ JObj example_entry_c1;
                       JObj {[ "id" := JStr "c9"; "score" := JNull ]} ] ]}
           [ JObj example_entry_c1;
             JObj {[ "id" := JStr "c9"; "score" := JNull ]} ]
           {[ "id" := JStr "c9"; "score" := JNull ]}).
  - reflexivity.
  - apply list_elem_of_further, list_elem_of_here.
  - reflexivity.
Defined.

(** ** Where the records of a response come from *)

Lemma process_entries_elem `{FloatOfStr} (top : list Candidate.t)
    (entries : list json) (records : list ScoredContractor.t)
    (r : ScoredContractor.t) :
  process_entries top entries = Some records → r ∈ records →
  ∃ e, e ∈ entries ∧ process_entry top e = Some (Some r).
Proof.
  revert records. induction entries as [|e entries IH]; intros records; simpl.
  - intros [= <-] Hr. by apply elem_of_nil in Hr.
  - destruct (process_entry top e) as [p|] eqn:He; [|discriminate]. simpl.
    destruct (process_entries top entries) as [rest|]; [|discriminate]. simpl.
    intros [= <-] Hr.
    assert (Hcases : p = Some r ∨ r ∈ rest).
    { destruct p as [r'|]; [|by right].
      apply elem_of_cons in Hr as [-> | Hr]; [by left | by right]. }
    destruct Hcases as [-> | Hrest].
    + exists e. split; [apply list_elem_of_here | done].
    + destruct (IH rest eq_refl Hrest) as (e' & Hin & He').
      exists e'. split; [by apply list_elem_of_further | done].
Qed.

(** Every record of a response is built from a shortlist entry, with that
    entry's base score (fallback) or a clamped and rounded suggestion. *)
Lemma response_record_inv `{FloatOfStr} (pool : list Contractor.t)
    (request : ScoreRequest.t) (gpt : refiner_outcome)
    (records : list ScoredContractor.t) (r : ScoredContractor.t) :
  score_pool pool request gpt = Ok records → r ∈ records →
  ∃ (c : Candidate.t) (score : R) (reasoning : option string),
    c ∈ top_candidates pool request
    ∧ r = scored_contractor (Candidate.id c) c score reasoning
    ∧ ((gpt = NotJson ∧ score = Candidate.base_score c)
       ∨ (∃ v suggested,
            gpt = Parsed v
            ∧ score = round1 (clamp_score (Candidate.base_score c) suggested))).
Proof.
  unfold score_pool. intros Hok Hr. destruct gpt as [| |v]; [discriminate| |].
  - injection Hok as <-. unfold fallback_contractors in Hr.
    apply list_elem_of_fmap in Hr as (c & -> & Hc).
    apply elem_of_take_elem_of in Hc.
    exists c, (Candidate.base_score c), (Some "Base score (GPT adjustment failed)").
    split; [done|]. split; [done|]. by left.
  - destruct (validate_response (top_candidates pool request) v)
      as [top_contractors|] eqn:Hval; [|discriminate].
    injection Hok as ->. unfold validate_response in Hval.
    destruct (py_get v "top_contractors" (JArr []) ≫= py_iter)
      as [entries|]; [|discriminate].
    simpl in Hval.
    destruct (process_entries (top_candidates pool request) entries)
      as [kept|] eqn:Hkept; [|discriminate].
    simpl in Hval. injection Hval as <-.
    apply elem_of_take_elem_of in Hr.
    destruct (process_entries_elem _ _ _ _ Hkept Hr) as (e & _ & He).
    apply process_entry_Some in He
      as (m & i & c & suggested & reasoning & _ & _ & Hfound & _ & _ & ->).
    apply dict_by_id_lookup_Some in Hfound as [Hin <-].
    exists c, (round1 (clamp_score (Candidate.base_score c) suggested)), reasoning.
    split; [done|]. split; [done|]. right. by exists v, suggested.
Qed.

Lemma available_contractors_none (pool : list Contractor.t) (request : ScoreRequest.t) :
  (∀ c, c ∈ pool →
        lower (Contractor.service_area c) ≠ lower (ScoreRequest.city request)) →
  available_contractors pool request = [].
Proof.
  intros Hnone. unfold available_contractors.
  destruct (filter _ pool) as [|c l] eqn:Hfilter; [done|].
  assert (Hc : c ∈ filter
                 (fun c => lower (Contractor.service_area c)
                           = lower (ScoreRequest.city request)) pool)
    by (rewrite Hfilter; apply list_elem_of_here).
  apply list_elem_of_filter in Hc as [Harea Hin]. by destruct (Hnone c Hin).
Qed.

(** X5: when no contractor of the pool serves the requested city, the
    shortlist is empty; the fallback then returns a response with no
    records, and a parsed reply gives either a response with no records or
    HTTP 500, never a record. *)
Theorem unknown_city_empty_response `{FloatOfStr}
    (pool : list Contractor.t) (request : ScoreRequest.t) :
  (∀ c, c ∈ pool →
        lower (Contractor.service_area c) ≠ lower (ScoreRequest.city request)) →
  top_candidates pool request = []
  ∧ score_pool pool request NotJson = Ok []
  ∧ (∀ v, score_pool pool request (Parsed v) = Ok []
          ∨ score_pool pool request (Parsed v) = HTTP500).
Proof.
  intros Hnone.
  assert (Htop : top_candidates pool request = []).
  { unfold top_candidates, sorted_base_scores.
    by rewrite (available_contractors_none pool request Hnone). }
  split; [done|]. split.
  - unfold score_pool. by rewrite Htop.
  - intros v.
    destruct (score_pool pool request (Parsed v)) as [records|] eqn:Hok;
      [|by right].
    left. f_equal. destruct records as [|r records]; [done|].
    destruct (response_record_inv pool request (Parsed v) (r :: records) r Hok)
      as (c & _ & _ & Hc & _); [apply list_elem_of_here|].
    rewrite Htop in Hc. by apply elem_of_nil in Hc.
Qed.

Lemma unknown_city_empty_response_witness :
  top_candidates CONTRACTORS provo_request = []
  ∧ @score_pool no_string_scores CONTRACTORS provo_request NotJson = Ok [].
Proof.
  destruct (@unknown_city_empty_response no_string_scores CONTRACTORS provo_request)
    as (Htop & Hfallback & _); [|by split].
  intros c Hc.
  destruct (contractors_cases c Hc) as [-> | [-> | [-> | [-> | ->]]]];
    vm_compute; discriminate.
Defined.

(** X6: every record of every response, fallback or validated, carries the
    identifier and the attributes of a contractor of the pool whose service
    area equals the requested city after lower-casing (with 4 weeks, no
    licenses and no flags where the contractor has none recorded): the
    endpoint never returns a contractor of another city or one it does not
    know, whatever the reply says. *)
Theorem response_records_from_pool `{FloatOfStr}
    (pool : list Contractor.t) (request : ScoreRequest.t)
    (gpt : refiner_outcome) (records : list ScoredContractor.t)
    (r : ScoredContractor.t) :
  score_pool pool request gpt = Ok records →
  r ∈ records →
  ∃ contractor,
    contractor ∈ pool
    ∧ lower (Contractor.service_area contractor) = lower (ScoreRequest.city request)
    ∧ carries_contractor r contractor.
Proof.
  intros Hok Hr.
  destruct (response_record_inv pool request gpt records r Hok Hr)
    as (c & score & reasoning & Hc & -> & _).
  apply top_candidates_elem in Hc as (contractor & Hin & Harea & ->).
  exists contractor. split; [done|]. split; [done|].
  unfold carries_contractor. by repeat split.
Qed.

Lemma response_records_from_pool_witness :
  ∃ contractor,
    contractor ∈ CONTRACTORS
    ∧ lower (Contractor.service_area contractor)
      = lower (ScoreRequest.city example_request)
    ∧ carries_contractor
        (scored_contractor "c1" (base_score_entry example_request c1) 97.2
           (Some "Strong warranty record"))
        contractor.
Proof.
  pose proof example_reply_response as Hresponse.
  unfold score_contractors_with_openai in Hresponse.
  apply (@response_records_from_pool no_string_scores CONTRACTORS example_request
           (Parsed example_reply) _ _ Hresponse).
  apply list_elem_of_here.
Defined.

(** ** The range of the scores *)

Lemma calculate_base_score_nonneg (contractor : Contractor.t) (request : ScoreRequest.t) :
  map_Forall (fun _ w => 0 <= w) (ScoreRequest.weights request) →
  (0 ≤ Contractor.years_in_business contractor)%Z →
  1 <= Contractor.rating contractor →
  0 <= calculate_base_score contractor request.
Proof.
  intros Hweights Hyears Hrating.
  rewrite calculate_base_score_closed_form.
  assert (Hsum : 0 <= weighted_score contractor request).
  { unfold weighted_score.
    pose proof (normalize_experience_range _ Hyears) as [He _].
    pose proof (normalize_reviews_range (Contractor.review_count contractor)) as [Hr _].
    pose proof (normalize_price_range (Contractor.pricing_band contractor)
                  (weight request "price" 0.1)) as [Hp _].
    pose proof (normalize_speed_nonneg
                  (default 4%Z (Contractor.speed_weeks contractor))) as Hs.
    assert (Ha : 0 <= rating_score contractor)
      by (unfold rating_score, normalize_rating; lra).
    pose proof (weight_nonneg request "experience" Hweights).
    pose proof (weight_nonneg request "reviews" Hweights).
    pose proof (weight_nonneg request "rating" Hweights).
    pose proof (weight_nonneg request "price" Hweights).
    pose proof (weight_nonneg request "speed" Hweights).
    repeat apply Rplus_le_le_0_compat; by apply Rmult_le_pos. }
  assert (Hpow : 0 <= 0.9 ^ negative_flag_count
                             (default [] (Contractor.flags contractor)))
    by (apply pow_le; lra).
  pose proof (category_multiplier_pos contractor request) as Hmult.
  apply Rmin_glb; [|lra].
  apply Rmult_le_pos; [apply Rmult_le_pos|]; lra.
Qed.

Lemma round1_base_score_range (x : R) : 0 <= x <= 100 → 0 <= round1 x <= 100.
Proof.
  intros [Hlo Hhi]. split.
  - apply Rle_trans with (IZR 0 / 10); [lra|]. apply round1_lower. lra.
  - apply Rle_trans with (IZR 1000 / 10); [|lra]. apply round1_upper. lra.
Qed.

(** X7: for non-negative weights and a pool of contractors with
    non-negative years and a rating of at least 1, every score of a
    response lies between -5 and 105, and every score of a fallback
    response between 0 and 100: the base score is capped at 100 but the
    adjusted score is not, so a response can carry a score above 100. *)
Theorem response_score_range `{FloatOfStr}
    (pool : list Contractor.t) (request : ScoreRequest.t)
    (gpt : refiner_outcome) (records : list ScoredContractor.t)
    (r : ScoredContractor.t) :
  map_Forall (fun _ w => 0 <= w) (ScoreRequest.weights request) →
  (∀ c, c ∈ pool →
        (0 ≤ Contractor.years_in_business c)%Z ∧ 1 <= Contractor.rating c) →
  score_pool pool request gpt = Ok records →
  r ∈ records →
  -5 <= ScoredContractor.score r <= 105
  ∧ (gpt = NotJson → 0 <= ScoredContractor.score r <= 100).
Proof.
  intros Hweights Hpool Hok Hr.
  destruct (response_record_inv pool request gpt records r Hok Hr)
    as (c & score & reasoning & Hc & -> & Hscore).
  cbn [ScoredContractor.score scored_contractor].
  assert (HB : 0 <= Candidate.base_score c <= 100).
  { destruct (top_candidates_elem pool request c Hc)
      as (contractor & Hin & _ & ->).
    cbn [Candidate.base_score base_score_entry].
    apply round1_base_score_range. destruct (Hpool contractor Hin) as [Hy Hrat].
    split; [by apply calculate_base_score_nonneg|].
    apply calculate_base_score_cap. }
  destruct Hscore as [[-> ->] | (v & suggested & -> & ->)].
  - split; [lra | done].
  - split; [|discriminate].
    destruct (top_candidates_tenth pool request c Hc) as [k Hk].
    rewrite Hk in *.
    pose proof (round1_clamp_bounds k suggested). lra.
Qed.

Lemma response_score_range_witness :
  -5 <= ScoredContractor.score
          (scored_contractor "c1" (base_score_entry example_request c1) 97.2
             (Some "Strong warranty record")) <= 105.
Proof.
  pose proof example_reply_response as Hresponse.
  unfold score_contractors_with_openai in Hresponse.
  refine (proj1 (@response_score_range no_string_scores CONTRACTORS
                   example_request (Parsed example_reply) _ _
                   example_weights_nonneg _ Hresponse _)).
  - intros c Hc.
    destruct (contractors_cases c Hc) as [-> | [-> | [-> | [-> | ->]]]];
      simpl; split; lia || lra.
  - apply list_elem_of_here.
Defined.

Lemma round1_tenth_plus (k j : Z) : round1 (IZR k / 10 + IZR j) = IZR k / 10 + IZR j.
Proof.
  replace (IZR k / 10 + IZR j) with (IZR (k + 10 * j) / 10)
    by (rewrite plus_IZR, mult_IZR; lra).
  apply round1_tenth.
Qed.

(** X8: what the gate does with a suggestion S for a shortlist entry with
    base score B (identifiers in the pool being distinct): a suggestion of
    B + 5 or more becomes B + 5, also when that is above 100; a suggestion
    of B - 5 or less becomes B - 5; a suggestion inside the band that has
    one decimal is kept as it is. *)
Theorem gate_clamp_cases `{FloatOfStr}
    (pool : list Contractor.t) (request : ScoreRequest.t)
    (m : gmap string json) (c : Candidate.t) (suggested : R)
    (reasoning : option string) :
  NoDup (Contractor.id <$> pool) →
  c ∈ top_candidates pool request →
  default (JStr "") (m !! "id") = JStr (Candidate.id c) →
  py_float (default (JNum 0) (m !! "score")) = Some suggested →
  validate_reasoning (default (JStr "") (m !! "reasoning")) = Some reasoning →
  (Candidate.base_score c + 5 <= suggested →
   process_entry (top_candidates pool request) (JObj m)
   = Some (Some (scored_contractor (Candidate.id c) c
                   (Candidate.base_score c + 5) reasoning)))
  ∧ (suggested <= Candidate.base_score c - 5 →
     process_entry (top_candidates pool request) (JObj m)
     = Some (Some (scored_contractor (Candidate.id c) c
                     (Candidate.base_score c - 5) reasoning)))
  ∧ (∀ j : Z,
       suggested = IZR j / 10 →
       Candidate.base_score c - 5 <= suggested <= Candidate.base_score c + 5 →
       process_entry (top_candidates pool request) (JObj m)
       = Some (Some (scored_contractor (Candidate.id c) c suggested reasoning))).
Proof.
  intros Hpool Hin Hid Hscore Hreason.
  pose proof (dict_by_id_lookup_elem _ c
                (top_candidates_ids_NoDup pool request Hpool) Hin) as Hfound.
  rewrite (process_entry_found _ m (Candidate.id c) c suggested reasoning)
    by done.
  destruct (top_candidates_tenth pool request c Hin) as [k Hk]. rewrite Hk.
  unfold clamp_score. cbv zeta.
  split; [|split].
  - intros Hhigh. do 3 f_equal.
    replace (Rmax (IZR k / 10 - 5) (Rmin suggested (IZR k / 10 + 5)))
      with (IZR k / 10 + IZR 5)
      by (unfold Rmax, Rmin; repeat destruct (Rle_dec _ _); lra).
    apply round1_tenth_plus.
  - intros Hlow. do 3 f_equal.
    replace (Rmax (IZR k / 10 - 5) (Rmin suggested (IZR k / 10 + 5)))
      with (IZR k / 10 + IZR (-5))
      by (unfold Rmax, Rmin; repeat destruct (Rle_dec _ _); lra).
    rewrite round1_tenth_plus. lra.
  - intros j -> Hband. do 3 f_equal.
    replace (Rmax (IZR k / 10 - 5) (Rmin (IZR j / 10) (IZR k / 10 + 5)))
      with (IZR j / 10)
      by (unfold Rmax, Rmin; repeat destruct (Rle_dec _ _); lra).
    apply round1_tenth.
Qed.

Lemma example_entry_high_fields :
  default (JStr "") (example_entry_high !! "id") = JStr "c1"
  ∧ @py_float no_string_scores (default (JNum 0) (example_entry_high !! "score"))
    = Some 200
  ∧ validate_reasoning (default (JStr "") (example_entry_high !! "reasoning"))
    = Some (Some "").
Proof. repeat split. Qed.

Lemma gate_clamp_cases_witness :
  Candidate.base_score (base_score_entry example_request c1) + 5 <= 200
  ∧ @process_entry no_string_scores (top_candidates CONTRACTORS example_request)
      (JObj example_entry_high)
    = Some (Some (scored_contractor "c1" (base_score_entry example_request c1)
                    (Candidate.base_score (base_score_entry example_request c1) + 5)
                    (Some ""))).
Proof.
  destruct example_entry_high_fields as (Hid & Hscore & Hreason).
  assert (Hhigh : Candidate.base_score (base_score_entry example_request c1) + 5
                  <= 200).
  { destruct example_rounded_scores as (B1 & _). simpl. rewrite B1. lra. }
  split; [exact Hhigh|].
  exact (proj1 (@gate_clamp_cases no_string_scores CONTRACTORS example_request
                  example_entry_high (base_score_entry example_request c1) 200
                  (Some "") CONTRACTORS_ids_NoDup example_c1_shortlisted
                  Hid Hscore Hreason) Hhigh).
Defined.

(** ** What of the request matters *)

Lemma calculate_base_score_request (contractor : Contractor.t)
    (request1 request2 : ScoreRequest.t) :
  lower (ScoreRequest.project_type request1)
  = lower (ScoreRequest.project_type request2) →
  ScoreRequest.weights request1 = ScoreRequest.weights request2 →
  calculate_base_score contractor request1 = calculate_base_score contractor request2.
Proof.
  intros Htype Hweights.
  unfold calculate_base_score, apply_project_type, weighted_score, price_score,
    weight. cbv zeta.
  by rewrite Htype, Hweights.
Qed.

(** X9: the result depends on the request only through its weights and
    the lower-cased city and project type: two requests that differ in the
    letter case of the city or of the project type, or in their notes, get
    the same shortlist and, for the same outcome of the model call, the
    same response. *)
Theorem request_case_and_notes_irrelevant `{FloatOfStr}
    (pool : list Contractor.t) (request1 request2 : ScoreRequest.t) :
  lower (ScoreRequest.city request1) = lower (ScoreRequest.city request2) →
  lower (ScoreRequest.project_type request1)
  = lower (ScoreRequest.project_type request2) →
  ScoreRequest.weights request1 = ScoreRequest.weights request2 →
  top_candidates pool request1 = top_candidates pool request2
  ∧ (∀ gpt, score_pool pool request1 gpt = score_pool pool request2 gpt).
Proof.
  intros Hcity Htype Hweights.
  assert (Htop : top_candidates pool request1 = top_candidates pool request2).
  { unfold top_candidates, sorted_base_scores, available_contractors.
    rewrite Hcity. do 2 f_equal.
    apply list_fmap_ext. intros _ contractor _. unfold base_score_entry.
    by rewrite (calculate_base_score_request contractor request1 request2). }
  split; [done|]. intros gpt. unfold score_pool. by rewrite Htop.
Qed.

Lemma request_case_and_notes_irrelevant_witness :
  top_candidates CONTRACTORS example_request_upper
  = top_candidates CONTRACTORS example_request.
Proof.
  apply (@request_case_and_notes_irrelevant no_string_scores CONTRACTORS
           example_request_upper example_request); reflexivity.
Defined.

(** ** Monotonicity *)

Lemma Rmin_monotone (x y c : R) : x <= y → Rmin x c <= Rmin y c.
Proof. intros Hxy. unfold Rmin. repeat destruct (Rle_dec _ _); lra. Qed.

Lemma Rmax_monotone (x y c : R) : x <= y → Rmax c x <= Rmax c y.
Proof. intros Hxy. unfold Rmax. repeat destruct (Rle_dec _ _); lra. Qed.

(** X10: the normalizers are monotone: more years, more reviews or a
    higher rating never lower the normalized value, and more weeks never
    raise it; the review normalizer is 100 from 500 reviews on. *)
Theorem normalizers_monotone
    (years1 years2 count1 count2 weeks1 weeks2 : Z) (rating1 rating2 : R) :
  (years1 ≤ years2)%Z → (count1 ≤ count2)%Z → rating1 <= rating2 →
  (weeks1 ≤ weeks2)%Z →
  normalize_experience years1 <= normalize_experience years2
  ∧ normalize_reviews count1 <= normalize_reviews count2
  ∧ normalize_rating rating1 <= normalize_rating rating2
  ∧ normalize_speed weeks2 <= normalize_speed weeks1
  ∧ ((500 ≤ count1)%Z → normalize_reviews count1 = 100).
Proof.
  intros Hyears Hcount Hrating Hweeks.
  apply IZR_le in Hyears. apply IZR_le in Hweeks.
  assert (Hln500 : 0 < ln 500) by (apply (ln_IZR_pos 500); lia).
  split; [|split; [|split; [|split]]].
  - unfold normalize_experience.
    apply Rmult_le_compat_r; [lra|]. apply Rmin_monotone. lra.
  - unfold normalize_reviews.
    destruct (Z.leb_spec count1 1) as [H1 | H1].
    + destruct (Z.leb_spec count2 1); [lra|]. cbv zeta.
      assert (0 < ln (IZR count2)) by (apply ln_IZR_pos; lia).
      assert (0 < ln (IZR count2) / ln 500) by (by apply Rdiv_lt_0_compat).
      unfold Rmin. destruct (Rle_dec _ _); lra.
    + destruct (Z.leb_spec count2 1); [lia|]. cbv zeta.
      apply Rmult_le_compat_r; [lra|]. apply Rmin_monotone.
      apply Rmult_le_compat_r; [left; by apply Rinv_0_lt_compat|].
      apply ln_monotone; [apply IZR_lt; lia | by apply IZR_le].
  - unfold normalize_rating. lra.
  - rewrite !normalize_speed_formula.
    apply Rmult_le_compat_r; [lra|]. apply Rmax_monotone. lra.
  - intros H500. unfold normalize_reviews.
    destruct (Z.leb_spec count1 1); [lia|]. cbv zeta.
    assert (Hln : ln 500 <= ln (IZR count1))
      by (apply ln_monotone; [lra | by apply (IZR_le 500)]).
    assert (1 <= ln (IZR count1) / ln 500).
    { apply Rmult_le_reg_r with (ln 500); [done|].
      replace (ln (IZR count1) / ln 500 * ln 500) with (ln (IZR count1))
        by (field; lra).
      lra. }
    unfold Rmin. destruct (Rle_dec _ _); lra.
Qed.

Lemma normalizers_monotone_witness :
  normalize_experience 3 <= normalize_experience 18
  ∧ normalize_reviews 59 <= normalize_reviews 312
  ∧ normalize_rating 4.2 <= normalize_rating 4.7
  ∧ normalize_speed 3 <= normalize_speed 2.
Proof.
  destruct (normalizers_monotone 3 18 59 312 2 3 4.2 4.7)
    as (He & Hr & Ha & Hs & _); [lia | lia | lra | lia |].
  by repeat split.
Defined.

(** ** A request without weights *)

Lemma round1_zero : round1 0 = 0.
Proof. replace 0 with (IZR 0 / 10) by lra. apply round1_tenth. Qed.

(** X11: when each of the five weights is missing from the request or is
    0, every base score is 0, so every shortlist entry has base score 0
    and the shortlist is ordered by the tie-breaks alone: higher rating
    first, then higher review count. *)
Theorem no_weights_ranking (pool : list Contractor.t) (request : ScoreRequest.t) :
  (∀ key, key ∈ ["experience"; "reviews"; "rating"; "price"; "speed"] →
          default 0 (ScoreRequest.weights request !! key) = 0) →
  (∀ contractor, calculate_base_score contractor request = 0)
  ∧ (∀ c, c ∈ top_candidates pool request → Candidate.base_score c = 0)
  ∧ StronglySorted ranks_before_by_rating (top_candidates pool request).
Proof.
  intros Hzero.
  assert (Hscore : ∀ contractor, calculate_base_score contractor request = 0).
  { intros contractor. rewrite calculate_base_score_closed_form.
    unfold weighted_score, weight.
    rewrite !Hzero by set_solver.
    rewrite !Rmult_0_r, !Rplus_0_r, !Rmult_0_l.
    unfold Rmin. destruct (Rle_dec _ _); lra. }
  assert (Htop : ∀ c, c ∈ top_candidates pool request → Candidate.base_score c = 0).
  { intros c Hc. apply top_candidates_elem in Hc as (contractor & _ & _ & ->).
    cbn [Candidate.base_score base_score_entry].
    rewrite Hscore. apply round1_zero. }
  split; [done|]. split; [done|].
  assert (Hsorted : StronglySorted ranks_before (top_candidates pool request))
    by apply StronglySorted_take, sorted_base_scores_sorted.
  revert Htop. induction Hsorted as [|x l Hsorted IH Hall]; intros Htop;
    constructor.
  - apply IH. intros c Hc. apply Htop. by right.
  - rewrite Forall_forall in Hall. apply Forall_forall. intros y Hy.
    pose proof (Hall y Hy) as Hxy. unfold ranks_before in Hxy.
    rewrite (Htop x), (Htop y) in Hxy by (by left || by right).
    unfold ranks_before_by_rating. destruct Hxy as [Hlt | [_ Hrest]]; [lra | done].
Qed.

Lemma no_weights_ranking_witness :
  (∀ contractor, calculate_base_score contractor no_weights_request = 0)
  ∧ StronglySorted ranks_before_by_rating
      (top_candidates CONTRACTORS no_weights_request).
Proof.
  destruct (no_weights_ranking CONTRACTORS no_weights_request)
    as (Hscore & _ & Hsorted); [|by split].
  intros key _. reflexivity.
Defined.

(** X12: raising the weight of experience, reviews, rating or speed never
    lowers a contractor's base score (for non-negative years and a rating
    of at least 1), whatever the other weights are. *)
Theorem base_score_monotone_in_weight
    (contractor : Contractor.t) (request : ScoreRequest.t) (key : string) (w : R) :
  key ∈ ["experience"; "reviews"; "rating"; "speed"] →
  (0 ≤ Contractor.years_in_business contractor)%Z →
  1 <= Contractor.rating contractor →
  default 0 (ScoreRequest.weights request !! key) <= w →
  calculate_base_score contractor request
  <= calculate_base_score contractor (with_weight request key w).
Proof.
  intros Hkey Hyears Hrating Hw.
  rewrite !calculate_base_score_closed_form.
  apply Rmin_monotone.
  assert (Hmult : category_multiplier contractor (with_weight request key w)
                  = category_multiplier contractor request) by reflexivity.
  rewrite Hmult.
  pose proof (category_multiplier_pos contractor request) as Hpos.
  assert (Hpow : 0 <= 0.9 ^ negative_flag_count
                             (default [] (Contractor.flags contractor)))
    by (apply pow_le; lra).
  apply Rmult_le_compat_r; [done|]. apply Rmult_le_compat_r; [lra|].
  pose proof (normalize_experience_range _ Hyears) as [He _].
  pose proof (normalize_reviews_range (Contractor.review_count contractor)) as [Hr _].
  pose proof (normalize_speed_nonneg
                (default 4%Z (Contractor.speed_weeks contractor))) as Hs.
  assert (Ha : 0 <= rating_score contractor)
    by (unfold rating_score, normalize_rating; lra).
  unfold weighted_score, price_score, weight, with_weight.
  cbn [ScoreRequest.weights].
  fold (exp_score contractor) in He. fold (review_score contractor) in Hr.
  fold (speed_score contractor) in Hs.
  rewrite !elem_of_cons, elem_of_nil in Hkey.
  destruct Hkey as [-> | [-> | [-> | [-> | []]]]];
    rewrite lookup_insert_eq, !lookup_insert_ne by done;
    cbn [default from_option Datatypes.id]; nra.
Qed.

Lemma base_score_monotone_in_weight_witness :
  calculate_base_score c5 example_request
  <= calculate_base_score c5 (with_weight example_request "reviews" 0.5).
Proof.
  apply (base_score_monotone_in_weight c5 example_request "reviews" 0.5).
  - set_solver.
  - simpl. lia.
  - simpl. lra.
  - destruct example_weight_values as (_ & Hreviews & _).
    unfold weight in Hreviews. rewrite Hreviews. lra.
Defined.

(** ** The rounding of the base score *)

Lemma round_half_even_error (y : R) :
  - (1 / 2) <= IZR (round_half_even y) - y <= 1 / 2.
Proof.
  pose proof (Zfloor_bound y) as [Hlo Hhi].
  unfold round_half_even.
  destruct (Rlt_dec _ _); [lra|].
  destruct (Rlt_dec _ _); [rewrite plus_IZR; lra|].
  destruct (Z.even _); [lra | rewrite plus_IZR; lra].
Qed.

(** X13: the base score of every shortlist entry is the computed base
    score of a contractor of the pool rounded to one decimal: it is a
    multiple of 0.1, it differs from the computed score by at most 0.05,
    and it is at most 100. *)
Theorem shortlist_score_rounding
    (pool : list Contractor.t) (request : ScoreRequest.t) (c : Candidate.t) :
  c ∈ top_candidates pool request →
  ∃ contractor,
    contractor ∈ pool
    ∧ Candidate.id c = Contractor.id contractor
    ∧ (∃ k : Z, Candidate.base_score c = IZR k / 10)
    ∧ -0.05 <= Candidate.base_score c - calculate_base_score contractor request
      <= 0.05
    ∧ Candidate.base_score c <= 100.
Proof.
  intros Hc. destruct (top_candidates_elem pool request c Hc)
    as (contractor & Hin & _ & ->).
  exists contractor. split; [done|]. split; [done|].
  cbn [Candidate.base_score base_score_entry].
  split; [apply round1_is_tenth|]. split.
  - unfold round1.
    pose proof (round_half_even_error (calculate_base_score contractor request * 10)).
    lra.
  - apply Rle_trans with (IZR 1000 / 10); [|lra]. apply round1_upper.
    pose proof (calculate_base_score_cap contractor request). lra.
Qed.

Lemma shortlist_score_rounding_witness :
  ∃ contractor,
    contractor ∈ CONTRACTORS
    ∧ Candidate.id (base_score_entry example_request c1) = Contractor.id contractor
    ∧ (∃ k : Z, Candidate.base_score (base_score_entry example_request c1)
                = IZR k / 10)
    ∧ -0.05 <= Candidate.base_score (base_score_entry example_request c1)
               - calculate_base_score contractor example_request
      <= 0.05
    ∧ Candidate.base_score (base_score_entry example_request c1) <= 100.
Proof.
  exact (shortlist_score_rounding CONTRACTORS example_request
           (base_score_entry example_request c1) example_c1_shortlisted).
Defined.

(** ** The lookup tables and the number of records *)

Lemma dict_by_id_snoc {V : Type} (f : Candidate.t → V) (l : list Candidate.t)
    (c : Candidate.t) :
  dict_by_id f (l ++ [c]) = <[Candidate.id c := f c]> (dict_by_id f l).
Proof. unfold dict_by_id. by rewrite foldl_snoc. Qed.

(** X14: the two lookup tables built from the shortlist map an identifier
    to the last shortlist entry with that identifier (to its base score,
    to the entry itself), and an identifier of no entry to nothing; so the
    base score used for the clamp is always that of the entry whose
    attributes are returned. *)
Theorem lookup_tables_last_entry (top : list Candidate.t) (i : string) :
  dict_by_id (fun c => c) top !! i
  = last (filter (fun c => Candidate.id c = i) top)
  ∧ dict_by_id Candidate.base_score top !! i
    = Candidate.base_score <$> last (filter (fun c => Candidate.id c = i) top).
Proof.
  assert (Hlast : dict_by_id (fun c => c) top !! i
                  = last (filter (fun c => Candidate.id c = i) top)).
  { induction top as [|c top IH] using rev_ind; [done|].
    rewrite dict_by_id_snoc, filter_app.
    destruct (decide (Candidate.id c = i)) as [Hid | Hid].
    - rewrite Hid, lookup_insert_eq.
      rewrite (filter_cons_True _ c) by done. by rewrite filter_nil, last_snoc.
    - rewrite lookup_insert_ne by done.
      rewrite (filter_cons_False _ c) by done.
      by rewrite filter_nil, app_nil_r. }
  split; [done|].
  by rewrite (dict_by_id_fmap Candidate.base_score), lookup_fmap, Hlast.
Qed.

Section RecordCount.
Context `{FloatOfStr}.

Lemma shortlisted_id_found (top : list Candidate.t) (i : string) :
  i ∈ Candidate.id <$> top → ∃ c, dict_by_id (fun c => c) top !! i = Some c.
Proof.
  intros Hin. destruct (dict_by_id (fun c => c) top !! i) as [c|] eqn:Hlook.
  - by exists c.
  - apply dict_by_id_lookup_None in Hlook. contradiction.
Qed.

Lemma process_entries_count (top : list Candidate.t) (entries : list json) :
  Forall well_formed_entry entries →
  ∃ records,
    process_entries top entries = Some records
    ∧ length records = length (filter (names_shortlisted top) entries).
Proof.
  induction 1 as [|e entries He Hall IH]; [by exists []|].
  destruct IH as (rest & Hrest & Hlen).
  destruct He as (m & i & suggested & reasoning & -> & Hid & Hscore & Hreason).
  cbn [process_entries]. rewrite Hrest.
  destruct (decide (i ∈ Candidate.id <$> top)) as [Hin | Hout].
  - destruct (shortlisted_id_found top i Hin) as [c Hfound].
    rewrite (process_entry_found top m i c suggested reasoning) by done.
    eexists. split; [reflexivity|].
    rewrite filter_cons_True by (unfold names_shortlisted; by rewrite Hid).
    simpl. by rewrite Hlen.
  - rewrite (process_entry_unknown top m i suggested) by done.
    exists rest. split; [reflexivity|].
    by rewrite filter_cons_False by (unfold names_shortlisted; by rewrite Hid).
Qed.

(** X15: when every entry of the reply is an object with a string
    identifier, a score [float] accepts and a reasoning that is a string or
    null, the endpoint returns a response, and the number of its records is
    the number of entries that name a shortlisted contractor, cut to 3: an
    entry naming an unknown contractor is skipped and a contractor named
    twice is returned twice. *)
Theorem response_record_count
    (pool : list Contractor.t) (request : ScoreRequest.t)
    (m : gmap string json) (entries : list json) :
  m !! "top_contractors" = Some (JArr entries) →
  Forall well_formed_entry entries →
  ∃ records,
    score_pool pool request (Parsed (JObj m)) = Ok records
    ∧ length records
      = Nat.min 3 (length (filter (names_shortlisted (top_candidates pool request))
                             entries)).
Proof.
  intros Hm Hentries.
  destruct (process_entries_count (top_candidates pool request) entries Hentries)
    as (kept & Hkept & Hlen).
  exists (take 3 kept). split.
  - unfold score_pool, validate_response. cbn [py_get mbind option_bind].
    rewrite Hm. cbn [default from_option Datatypes.id py_iter mbind option_bind].
    by rewrite Hkept.
  - by rewrite length_take, Hlen.
Qed.

End RecordCount.

Lemma example_entry_c1_well_formed :
  @well_formed_entry no_string_scores (JObj example_entry_c1).
Proof.
  destruct example_entry_c1_fields as (Hid & Hscore & Hreason).
  by exists example_entry_c1, "c1", 97.25, (Some "Strong warranty record").
Qed.

Lemma example_entry_c1_names_shortlisted :
  names_shortlisted (top_candidates CONTRACTORS example_request)
    (JObj example_entry_c1).
Proof.
  unfold names_shortlisted.
  destruct example_entry_c1_fields as (-> & _).
  rewrite example_top_candidates. compute_done.
Qed.

Lemma response_record_count_witness :
  ∃ records,
    @score_pool no_string_scores CONTRACTORS example_request
      (Parsed (JObj example_reply_twice))
    = Ok records
    ∧ length records = 2%nat.
Proof.
  destruct (@response_record_count no_string_scores CONTRACTORS example_request
              example_reply_twice
              [JObj example_entry_c1; JObj example_entry_c1])
    as (records & Hok & Hlen).
  - reflexivity.
  - repeat constructor; apply example_entry_c1_well_formed.
  - exists records. split; [exact Hok|]. rewrite Hlen.
    rewrite !filter_cons_True by apply example_entry_c1_names_shortlisted.
    reflexivity.
Defined.

(** ** The order of the shortlist and of the fallback *)

Lemma StronglySorted_lookup {A : Type} (P : A → A → Prop) (l : list A)
    (i j : nat) (x y : A) :
  StronglySorted P l → (i < j)%nat → l !! i = Some x → l !! j = Some y → P x y.
Proof.
  intros Hsorted. revert i j.
  induction Hsorted as [|a l Hsorted IH Hall]; intros i j Hij Hi Hj;
    [done|].
  destruct j as [|j]; [lia|]. simpl in Hj. destruct i as [|i].
  - injection Hi as <-. rewrite Forall_forall in Hall.
    apply Hall. by eapply list_elem_of_lookup_2.
  - simpl in Hi. apply (IH i j); [lia | done | done].
Qed.

(** X16: the records of a fallback response are in non-increasing order
    of score: a record never has a higher score than one before it. *)
Theorem fallback_scores_descending `{FloatOfStr}
    (pool : list Contractor.t) (request : ScoreRequest.t)
    (records : list ScoredContractor.t) (i j : nat)
    (r1 r2 : ScoredContractor.t) :
  score_pool pool request NotJson = Ok records →
  (i < j)%nat →
  records !! i = Some r1 →
  records !! j = Some r2 →
  ScoredContractor.score r2 <= ScoredContractor.score r1.
Proof.
  unfold score_pool, fallback_contractors. intros [= <-] Hij Hi Hj.
  rewrite list_lookup_fmap in Hi, Hj.
  destruct (take 3 (top_candidates pool request) !! i) as [x|] eqn:Hx;
    [|discriminate].
  destruct (take 3 (top_candidates pool request) !! j) as [y|] eqn:Hy;
    [|discriminate].
  injection Hi as <-. injection Hj as <-.
  cbn [ScoredContractor.score fallback_contractor scored_contractor].
  assert (Hsorted : StronglySorted ranks_before
                      (take 3 (top_candidates pool request))).
  { do 2 apply StronglySorted_take. apply sorted_base_scores_sorted. }
  pose proof (StronglySorted_lookup _ _ i j x y Hsorted Hij Hx Hy) as Hxy.
  unfold ranks_before in Hxy. destruct Hxy as [Hlt | [Heq _]]; lra.
Qed.

Lemma fallback_scores_descending_witness :
  ScoredContractor.score
    (fallback_contractor (base_score_entry example_request c4))
  <= ScoredContractor.score
       (fallback_contractor (base_score_entry example_request c1)).
Proof.
  pose proof example_fallback_response as Hresponse.
  unfold score_contractors_with_openai in Hresponse.
  apply (@fallback_scores_descending no_string_scores CONTRACTORS example_request
           _ 0%nat 1%nat _ _ Hresponse); [lia | reflexivity | reflexivity].
Defined.

(** X17: the shortlist is the best of the scored records: the sorted list
    is the shortlist followed by the records left out, every record kept
    ranks before every record left out by the tie-break hierarchy, and
    when at most 5 contractors serve the city none is left out. *)
Theorem shortlist_is_the_best (pool : list Contractor.t) (request : ScoreRequest.t) :
  sorted_base_scores pool request
  = top_candidates pool request ++ drop 5 (sorted_base_scores pool request)
  ∧ (∀ x y, x ∈ top_candidates pool request →
            y ∈ drop 5 (sorted_base_scores pool request) →
            ranks_before x y)
  ∧ ((length (available_contractors pool request) ≤ 5)%nat →
     top_candidates pool request
     ≡ₚ base_score_entry request <$> available_contractors pool request).
Proof.
  unfold top_candidates. split; [by rewrite take_drop|]. split.
  - intros x y Hx Hy.
    apply (StronglySorted_app_1_elem_of ranks_before
             (take 5 (sorted_base_scores pool request))
             (drop 5 (sorted_base_scores pool request))); [|done|done].
    rewrite take_drop. apply sorted_base_scores_sorted.
  - intros Hlen. rewrite take_ge.
    + apply sort_reverse_perm.
    + unfold sorted_base_scores. by rewrite sort_reverse_perm, length_fmap.
Qed.
